(** * Football-Data tracker: fetch layer and match normalisation

    A shallow embedding of [app.py]: the rate-limited, memoised fetch
    operations ([football_data_get], [get_teams_in_league],
    [get_team_by_id], [get_last_matches_for_team], [get_league_standings])
    and the match normaliser ([parse_date],
    [build_match_list_from_matches]).

    Python values are the JSON documents [r.json()] produces (floats are
    left out); a Python exception is an explicit [Raise] result; the
    process-wide state (clock, [LAST_REQUEST_TIME], the upstream server,
    flashed messages) is threaded explicitly, and every
    [functools.lru_cache] decorator owns a recency-ordered cache. *)

From Stdlib Require Import ZArith String Ascii List Bool Lia.
From stdpp Require Import base tactics option list strings pretty.

Open Scope string_scope.
Open Scope Z_scope.
Open Scope list_scope.

(** ** Python values *)

(** What [json.loads] returns: [None], [bool], [int], [str], [list] and
    [dict].  A [dict] is kept as the list of its items in insertion
    order; a lookup reads the first binding of a key.  A [str] is its
    UTF-8 byte string: equality, ordering, concatenation, substring search
    and the replacement of an ASCII character agree with Python's
    code-point versions on it. *)
#[warnings="-register-all"]
Inductive value : Type :=
| VNone
| VBool (b : bool)
| VInt (z : Z)
| VStr (s : string)
| VList (l : list value)
| VDict (d : list (string * value)).

(** The exceptions the modelled code can raise. *)
Inductive exn : Type := AttributeError | TypeError | KeyError.

(** The outcome of evaluating an expression: a value or a raised
    exception. *)
Inductive res (A : Type) : Type :=
| Ok (a : A)
| Raise (e : exn).
Arguments Ok {A} a.
Arguments Raise {A} e.

Definition res_bind {A B : Type} (m : res A) (f : A -> res B) : res B :=
  match m with Ok a => f a | Raise e => Raise e end.

Declare Scope res_scope.
Delimit Scope res_scope with res.
Bind Scope res_scope with res.
Notation "x <- m ;; k" := (res_bind m (fun x => k))
  (at level 100, m at next level, right associativity) : res_scope.
Open Scope res_scope.

(** [bool(v)]: Python truthiness. *)
Definition truthy (v : value) : bool :=
  match v with
  | VNone => false
  | VBool b => b
  | VInt z => negb (z =? 0)
  | VStr s => negb (String.eqb s "")
  | VList l => match l with [] => false | _ => true end
  | VDict d => match d with [] => false | _ => true end
  end.

(** [d.get(k)] on the items of a dict. *)
Fixpoint dict_get (d : list (string * value)) (k : string) : option value :=
  match d with
  | [] => None
  | (k', v) :: d' => if String.eqb k' k then Some v else dict_get d' k
  end.

(** [v.get(k, dflt)]: only a dict has the method. *)
Definition py_get (v : value) (k : string) (dflt : value) : res value :=
  match v with
  | VDict d => Ok (default dflt (dict_get d k))
  | _ => Raise AttributeError
  end.

(** [a == b]; never raises.  [bool] is a subclass of [int]: [True] is 1
    and [False] is 0. *)
Fixpoint py_eq (a b : value) : bool :=
  match a, b with
  | VNone, VNone => true
  | VBool x, VBool y => Bool.eqb x y
  | VBool x, VInt y => (if x then 1 else 0) =? y
  | VInt x, VBool y => x =? (if y then 1 else 0)
  | VInt x, VInt y => x =? y
  | VStr s, VStr t => String.eqb s t
  | VList l1, VList l2 =>
      (fix go (l1 l2 : list value) : bool :=
         match l1, l2 with
         | [], [] => true
         | x :: xs, y :: ys => py_eq x y && go xs ys
         | _, _ => false
         end) l1 l2
  | VDict d1, VDict d2 =>
      (length d1 =? length d2)%nat &&
      (fix go (d1 : list (string * value)) : bool :=
         match d1 with
         | [] => true
         | (k, v) :: r =>
             match dict_get d2 k with
             | Some v2 => py_eq v v2 && go r
             | None => false
             end
         end) d1
  | _, _ => false
  end.

(** [a > b]; [None] stands for the [TypeError] of an unordered pair of
    types.  Lists compare at their first unequal position, then by
    length. *)
Fixpoint py_gt (a b : value) : option bool :=
  match a, b with
  | VInt x, VInt y => Some (y <? x)
  | VInt x, VBool y => Some ((if y then 1 else 0) <? x)
  | VBool x, VInt y => Some (y <? (if x then 1 else 0))
  | VBool x, VBool y => Some ((if y then 1 else 0) <? (if x then 1 else 0))
  | VStr s, VStr t => Some (String.ltb t s)
  | VList l1, VList l2 =>
      (fix go (l1 l2 : list value) : option bool :=
         match l1, l2 with
         | x :: xs, y :: ys => if py_eq x y then go xs ys else py_gt x y
         | _ :: _, [] => Some true
         | [], _ => Some false
         end) l1 l2
  | _, _ => None
  end.

(** [s.replace(c, t)] for a one-character pattern. *)
Fixpoint str_replace (c : ascii) (t : string) (s : string) : string :=
  match s with
  | EmptyString => EmptyString
  | String a s' =>
      if Ascii.eqb a c then t +:+ str_replace c t s'
      else String a (str_replace c t s')
  end.

(** ** The normalised record *)

Inductive result_code : Type := W | D | L.

Section Normalizer.

(** [datetime.fromisoformat] belongs to the Python library and its
    accepted grammar varies with the interpreter version: it is a
    parameter, [None] standing for its [ValueError]. *)
Variable datetime : Type.
Variable fromisoformat : string -> option datetime.

(** [str(v)] of a list or a dict is Python's [repr], which depends on
    the Unicode character classes; it is a parameter too. *)
Variable container_str : value -> string.

(** [str(v)]. *)
Definition py_str (v : value) : string :=
  match v with
  | VNone => "None"
  | VBool b => if b then "True" else "False"
  | VInt z => pretty z
  | VStr s => s
  | VList _ | VDict _ => container_str v
  end.

(** The dict appended to [match_list]. *)
Record normalized : Type := {
  date : option datetime;
  opponent : value;
  goals_for : value;
  goals_against : value;
  result : option result_code;
  is_home : bool;
  status : string;
  competition : value;
  raw : value
}.

(** [parse_date]: a falsy argument gives [None]; a [str] is handed to
    [fromisoformat] after the replacement of [Z]; anything else has no
    [replace] method, and the [AttributeError] is swallowed by the
    [except Exception] like the [ValueError] of a bad string. *)
Definition parse_date (date_str : value) : option datetime :=
  if negb (truthy date_str) then None
  else match date_str with
       | VStr s => fromisoformat (str_replace "Z"%char "+00:00" s)
       | _ => None
       end.

(** The [if goals_for is not None and goals_against is not None] block. *)
Definition classify (goals_for goals_against : value) : res (option result_code) :=
  match goals_for, goals_against with
  | VNone, _ | _, VNone => Ok None
  | _, _ =>
      match py_gt goals_for goals_against with
      | None => Raise TypeError
      | Some true => Ok (Some W)
      | Some false =>
          if py_eq goals_for goals_against then Ok (Some D) else Ok (Some L)
      end
  end.

(** One iteration of the [for] loop of [build_match_list_from_matches],
    up to the record it appends. *)
Definition normalize_match (m : value) (team_id : value) : res normalized :=
  utc <- py_get m "utcDate" VNone ;;
  let date := parse_date utc in
  home_team <- py_get m "homeTeam" (VDict []) ;;
  away_team <- py_get m "awayTeam" (VDict []) ;;
  score_obj <- py_get m "score" (VDict []) ;;
  score <- py_get score_obj "fullTime" (VDict []) ;;
  home_id <- py_get home_team "id" VNone ;;
  away_id <- py_get away_team "id" VNone ;;
  home_name <- py_get home_team "name" (VStr "") ;;
  away_name <- py_get away_team "name" (VStr "") ;;
  home_score <- py_get score "home" VNone ;;
  away_score <- py_get score "away" VNone ;;
  let '(goals_for, goals_against, opponent, is_home) :=
    if String.eqb (py_str team_id) (py_str home_id)
    then (home_score, away_score, away_name, true)
    else (away_score, home_score, home_name, false) in
  result <- classify goals_for goals_against ;;
  comp_obj <- py_get m "competition" (VDict []) ;;
  competition <- py_get comp_obj "name" (VStr "") ;;
  Ok {| date := date;
        opponent := opponent;
        goals_for := goals_for;
        goals_against := goals_against;
        result := result;
        is_home := is_home;
        status := "Finalizado";
        competition := competition;
        raw := m |}.

(** The loop: records are appended to [match_list] one by one, and an
    exception leaves the loop at once. *)
Fixpoint build_loop (matches : list value) (team_id : value)
    (match_list : list normalized) : res (list normalized) :=
  match matches with
  | [] => Ok match_list
  | m :: rest =>
      r <- normalize_match m team_id ;;
      build_loop rest team_id (match_list ++ [r])
  end.

Definition build_match_list_from_matches (matches : list value) (team_id : value)
    : res (list normalized) :=
  build_loop matches team_id [].

End Normalizer.

(** ** More of Python, for the fetch operations *)

(** [k in v] for a [str] key [k]: key membership in a dict, element
    membership in a list, substring search in a [str]; the other values
    are not containers. *)
Definition py_contains (k : string) (v : value) : res bool :=
  match v with
  | VDict d => Ok (bool_decide (is_Some (dict_get d k)))
  | VList l => Ok (existsb (fun e => py_eq e (VStr k)) l)
  | VStr s => Ok (bool_decide (is_Some (String.index 0 k s)))
  | _ => Raise TypeError
  end.

(** [v[k]] for a [str] key [k]. *)
Definition py_getitem (v : value) (k : string) : res value :=
  match v with
  | VDict d => match dict_get d k with Some x => Ok x | None => Raise KeyError end
  | _ => Raise TypeError
  end.

(** The elements a [for] loop over [v] visits: the items of a list, the
    keys of a dict, the characters of a [str] (split here by byte: every
    use below only needs that each of them is a [str] and that there is
    one when the string is not empty). *)
Definition py_iter (v : value) : res (list value) :=
  match v with
  | VList l => Ok l
  | VDict d => Ok (map (fun kv => VStr (fst kv)) d)
  | VStr s => Ok (map (fun a => VStr (String a EmptyString)) (list_ascii_of_string s))
  | _ => Raise TypeError
  end.

(** ** Calls and their arguments *)

(** The arguments the routes hand to the fetch operations: [None], a
    [str] taken from the request, or an [int]. *)
Inductive arg : Type := ANone | AStr (s : string) | AInt (z : Z).

(** A call as written: positional arguments, then keyword arguments in
    the order given. *)
Record call : Type := { args : list arg; kwargs : list (string * arg) }.

#[global] Instance arg_eq_dec : EqDecision arg.
Proof. solve_decision. Defined.
#[global] Instance call_eq_dec : EqDecision call.
Proof. solve_decision. Defined.

(** An argument inside an f-string. *)
Definition fmt (a : arg) : string :=
  match a with
  | ANone => "None"
  | AStr s => s
  | AInt z => pretty z
  end.

Definition arg_truthy (a : arg) : bool :=
  match a with
  | ANone => false
  | AStr s => negb (String.eqb s "")
  | AInt z => negb (z =? 0)
  end.

(** [limit * 2]: doubling an [int], repeating a [str]. *)
Definition arg_double (a : arg) : res arg :=
  match a with
  | AInt z => Ok (AInt (z * 2))
  | AStr s => Ok (AStr (s +:+ s))
  | ANone => Raise TypeError
  end.

(** [l[:limit]]. *)
Definition py_slice_to (l : list value) (limit : arg) : res (list value) :=
  match limit with
  | AInt z =>
      if 0 <=? z then Ok (take (Z.to_nat z) l)
      else Ok (take (Z.to_nat (Z.of_nat (length l) + z)) l)
  | ANone => Ok l
  | AStr _ => Raise TypeError
  end.

Fixpoint kw_get (kw : list (string * arg)) (name : string) : option arg :=
  match kw with
  | [] => None
  | (k, v) :: kw' => if String.eqb k name then Some v else kw_get kw' name
  end.

(** Python's binding of the arguments of a call to the parameters of a
    [def] (name, default if any): positional arguments first, then
    keywords, then defaults. *)
Fixpoint bind_go (params : list (string * option arg)) (pos : list arg)
    (kw : list (string * arg)) : res (list arg) :=
  match params with
  | [] => match pos with [] => Ok [] | _ :: _ => Raise TypeError end
  | (name, dflt) :: params' =>
      match pos with
      | a :: pos' =>
          match kw_get kw name with
          | Some _ => Raise TypeError
          | None => rest <- bind_go params' pos' kw ;; Ok (a :: rest)
          end
      | [] =>
          match kw_get kw name, dflt with
          | Some v, _ => rest <- bind_go params' [] kw ;; Ok (v :: rest)
          | None, Some d => rest <- bind_go params' [] kw ;; Ok (d :: rest)
          | None, None => Raise TypeError
          end
      end
  end.

Fixpoint kw_well_formed (names : list string) (seen : list string)
    (kw : list (string * arg)) : bool :=
  match kw with
  | [] => true
  | (k, _) :: kw' =>
      bool_decide (k ∈ names) && negb (bool_decide (k ∈ seen))
      && kw_well_formed names (k :: seen) kw'
  end.

Definition bind_params (params : list (string * option arg)) (c : call)
    : res (list arg) :=
  if kw_well_formed (map fst params) [] (kwargs c)
  then bind_go params (args c) (kwargs c)
  else Raise TypeError.

(** ** The process and its environment *)

(** What [requests.get] gives back.  [http_error_msg] is the text of the
    [HTTPError] that [raise_for_status] builds for a 4xx or 5xx status;
    [json] is the decoded body, or the text of the decoding error, which
    [requests] raises as a [RequestException]. *)
Record response : Type := {
  status_code : Z;
  http_error_msg : string;
  json : string + value
}.

Inductive http_result : Type :=
| Responded (r : response)
| RequestException (text : string).

(** What the process does to the outside: it sleeps, it sends a request,
    it flashes a message to the user.  The [print] calls are left out. *)
Inductive event : Type :=
| ESleep (d : Z)
| ERequest (url : string)
| EFlash (message category : string).

(** The clock, the module-level [LAST_REQUEST_TIME], the upstream server
    (its answer to the [n]-th request of the process, by URL), and the
    events so far, oldest first.  The clock is read in whole seconds. *)
Record world : Type := {
  now : Z;
  LAST_REQUEST_TIME : Z;
  upstream : nat -> string -> http_result;
  served : nat;
  trace : list event
}.

Definition REQUEST_DELAY : Z := 6.

Definition sleep (d : Z) (w : world) : world :=
  {| now := now w + d;
     LAST_REQUEST_TIME := LAST_REQUEST_TIME w;
     upstream := upstream w;
     served := served w;
     trace := trace w ++ [ESleep d] |}.

Definition flash (message category : string) (w : world) : world :=
  {| now := now w;
     LAST_REQUEST_TIME := LAST_REQUEST_TIME w;
     upstream := upstream w;
     served := served w;
     trace := trace w ++ [EFlash message category] |}.

Definition requests_get (url : string) (w : world) : http_result * world :=
  (upstream w (served w) url,
   {| now := now w;
      LAST_REQUEST_TIME := LAST_REQUEST_TIME w;
      upstream := upstream w;
      served := S (served w);
      trace := trace w ++ [ERequest url] |}).

Definition rate_limited_request (w : world) : world :=
  let current_time := now w in
  let elapsed := current_time - LAST_REQUEST_TIME w in
  let w1 := if elapsed <? REQUEST_DELAY then sleep (REQUEST_DELAY - elapsed) w else w in
  {| now := now w1;
     LAST_REQUEST_TIME := now w1;
     upstream := upstream w1;
     served := served w1;
     trace := trace w1 |}.

(** [football_data_get]: every exception of the [try] block is a
    [RequestException] and is caught, so the function always returns. *)
Definition football_data_get (endpoint : string) (w : world) : value * world :=
  let url := "https://api.football-data.org/v4/" +:+ endpoint in
  let w := rate_limited_request w in
  let '(got, w) := requests_get url w in
  match got with
  | RequestException e => (VNone, flash ("Error de conexión: " +:+ e) "danger" w)
  | Responded r =>
      if status_code r =? 429 then
        (VNone, flash "Límite de requests excedido. Espera un minuto." "warning" w)
      else if status_code r =? 403 then
        (VNone, flash "API Key inválida o no configurada." "danger" w)
      else if status_code r =? 404 then
        (VNone, w)
      else if (400 <=? status_code r) && (status_code r <? 600) then
        (VNone, flash ("Error de conexión: " +:+ http_error_msg r) "danger" w)
      else
        match json r with
        | inr data => (data, w)
        | inl e => (VNone, flash ("Error de conexión: " +:+ e) "danger" w)
        end
  end.

(** ** The fetch operations *)

(** [if not season: season = "2023"]. *)
Definition default_season (season : arg) : arg :=
  if arg_truthy season then season else AStr "2023".

(** [not data or key not in data]. *)
Definition lacks (data : value) (key : string) : res bool :=
  if negb (truthy data) then Ok true
  else present <- py_contains key data ;; Ok (negb present).

(** [match.get('status') == 'FINISHED']. *)
Definition is_finished (m : value) : res bool :=
  st <- py_get m "status" VNone ;; Ok (py_eq st (VStr "FINISHED")).

(** The list comprehension [[match for match in ms if ...]]. *)
Fixpoint keep_finished (ms : list value) : res (list value) :=
  match ms with
  | [] => Ok []
  | m :: rest =>
      f <- is_finished m ;;
      kept <- keep_finished rest ;;
      Ok (if f then m :: kept else kept)
  end.

(** The [for standing in data['standings']] loop; [None] when it runs
    to its end without a [return]. *)
Fixpoint first_total (standings : list value) : res (option value) :=
  match standings with
  | [] => Ok None
  | standing :: rest =>
      ty <- py_getitem standing "type" ;;
      if py_eq ty (VStr "TOTAL")
      then table <- py_getitem standing "table" ;; Ok (Some table)
      else first_total rest
  end.

(** A computation that reads and changes the world and may raise; the
    effects made before an exception stay. *)
Definition M (A : Type) : Type := world -> res A * world.

Definition ret {A : Type} (a : A) : M A := fun w => (Ok a, w).
Definition M_bind {A B : Type} (m : M A) (f : A -> M B) : M B := fun w =>
  match m w with
  | (Ok a, w') => f a w'
  | (Raise e, w') => (Raise e, w')
  end.

Declare Scope M_scope.
Delimit Scope M_scope with M.
Bind Scope M_scope with M.
Notation "x <- m ;; k" := (M_bind m (fun x => k))
  (at level 100, m at next level, right associativity) : M_scope.

Definition lift {A : Type} (r : res A) : M A := fun w => (r, w).

Definition fetch (endpoint : string) : M value :=
  fun w => let '(data, w') := football_data_get endpoint w in (Ok data, w').

Open Scope M_scope.

(** The body of [get_teams_in_league(league_code, season=None)]. *)
Definition get_teams_in_league_body (c : call) : M value :=
  ps <- lift (bind_params [("league_code", None); ("season", Some ANone)] c) ;;
  match ps with
  | [league_code; season] =>
      let season := default_season season in
      data <- fetch ("competitions/" +:+ fmt league_code +:+ "/teams?season=" +:+ fmt season) ;;
      missing <- lift (lacks data "teams") ;;
      if missing then ret (VList [])
      else lift (py_getitem data "teams")
  | _ => lift (Raise TypeError)
  end.

(** The body of [get_team_by_id(team_id)]. *)
Definition get_team_by_id_body (c : call) : M value :=
  ps <- lift (bind_params [("team_id", None)] c) ;;
  match ps with
  | [team_id] =>
      data <- fetch ("teams/" +:+ fmt team_id) ;;
      ret (if truthy data then data else VDict [])
  | _ => lift (Raise TypeError)
  end.

(** The body of [get_last_matches_for_team(team_id, season=None, limit=15)]. *)
Definition get_last_matches_for_team_body (c : call) : M value :=
  ps <- lift (bind_params [("team_id", None); ("season", Some ANone);
                            ("limit", Some (AInt 15))] c) ;;
  match ps with
  | [team_id; season; limit] =>
      let season := default_season season in
      twice <- lift (arg_double limit) ;;
      data <- fetch ("teams/" +:+ fmt team_id +:+ "/matches?season=" +:+ fmt season
                     +:+ "&limit=" +:+ fmt twice) ;;
      missing <- lift (lacks data "matches") ;;
      if missing then ret (VList [])
      else
        all_matches <- lift (py_getitem data "matches") ;;
        ms <- lift (py_iter all_matches) ;;
        finished_matches <- lift (keep_finished ms) ;;
        finished_matches <- lift (py_slice_to finished_matches limit) ;;
        ret (VList finished_matches)
  | _ => lift (Raise TypeError)
  end.

(** The body of [get_league_standings(league_code, season=None)]. *)
Definition get_league_standings_body (c : call) : M value :=
  ps <- lift (bind_params [("league_code", None); ("season", Some ANone)] c) ;;
  match ps with
  | [league_code; season] =>
      let season := default_season season in
      data <- fetch ("competitions/" +:+ fmt league_code +:+ "/standings?season="
                     +:+ fmt season) ;;
      missing <- lift (lacks data "standings") ;;
      if missing then ret (VList [])
      else
        all_standings <- lift (py_getitem data "standings") ;;
        standings <- lift (py_iter all_standings) ;;
        found <- lift (first_total standings) ;;
        ret (default (VList []) found)
  | _ => lift (Raise TypeError)
  end.

Close Scope M_scope.

(** ** [functools.lru_cache] *)

(** The cache of one decorated function: the key of an entry is the call
    as written (positional arguments, then keywords; for [None], [str]
    and [int] arguments the equality of keys is structural), its value
    the result returned.  Entries are kept from the least to the most
    recently used. *)
Definition lru : Type := list (call * value).

Fixpoint lru_find (k : call) (c : lru) : option value :=
  match c with
  | [] => None
  | (k', v) :: c' => if bool_decide (k' = k) then Some v else lru_find k c'
  end.

Fixpoint lru_remove (k : call) (c : lru) : lru :=
  match c with
  | [] => []
  | (k', v) :: c' =>
      if bool_decide (k' = k) then lru_remove k c' else (k', v) :: lru_remove k c'
  end.

(** A hit moves the entry to the most recent end. *)
Definition lru_touch (k : call) (c : lru) : lru :=
  match lru_find k c with
  | Some v => lru_remove k c ++ [(k, v)]
  | None => c
  end.

(** A miss stores the result, in place of the least recently used entry
    when the cache is full. *)
Definition lru_insert (maxsize : nat) (k : call) (v : value) (c : lru) : lru :=
  if (maxsize <=? length c)%nat then tail c ++ [(k, v)] else c ++ [(k, v)].

(** The wrapper the decorator puts around [user_function].  The key is
    looked up before the function is entered; an exception stores
    nothing; [maxsize=0] stores nothing at all. *)
Definition lru_cache (maxsize : nat)
    (user_function : call -> world -> res value * world)
    (k : call) (c : lru) (w : world) : res value * lru * world :=
  match maxsize with
  | O => let '(r, w') := user_function k w in (r, c, w')
  | S _ =>
      match lru_find k c with
      | Some v => (Ok v, lru_touch k c, w)
      | None =>
          match user_function k w with
          | (Ok v, w') => (Ok v, lru_insert maxsize k v c, w')
          | (Raise e, w') => (Raise e, c, w')
          end
      end
  end.

Definition get_teams_in_league := lru_cache 128 get_teams_in_league_body.
Definition get_team_by_id := lru_cache 256 get_team_by_id_body.
Definition get_last_matches_for_team := lru_cache 256 get_last_matches_for_team_body.
Definition get_league_standings := lru_cache 128 get_league_standings_body.

(** The cache an access leaves, whatever the world did: a hit refreshes
    the entry, a miss stores [v]. *)
Definition lru_access (maxsize : nat) (c : lru) (kv : call * value) : lru :=
  match lru_find (fst kv) c with
  | Some _ => lru_touch (fst kv) c
  | None => lru_insert maxsize (fst kv) (snd kv) c
  end.

Definition lru_run (maxsize : nat) (accesses : list (call * value)) : lru :=
  fold_left (lru_access maxsize) accesses [].

Arguments date {datetime} n.
Arguments opponent {datetime} n.
Arguments goals_for {datetime} n.
Arguments goals_against {datetime} n.
Arguments result {datetime} n.
Arguments is_home {datetime} n.
Arguments status {datetime} n.
Arguments competition {datetime} n.
Arguments raw {datetime} n.

(** ** The shape of the upstream documents *)

Definition is_dict (v : value) : bool :=
  match v with VDict _ => true | _ => false end.

(** The member [k] of an object, [dflt] when the key is missing. *)
Definition field (v : value) (k : string) (dflt : value) : value :=
  match v with
  | VDict d => default dflt (dict_get d k)
  | _ => dflt
  end.

(** The parts of a raw match the normaliser reads, named as in its body. *)
Definition utc_date (m : value) : value := field m "utcDate" VNone.
Definition home_team (m : value) : value := field m "homeTeam" (VDict []).
Definition away_team (m : value) : value := field m "awayTeam" (VDict []).
Definition score_object (m : value) : value := field m "score" (VDict []).
Definition full_time (m : value) : value := field (score_object m) "fullTime" (VDict []).
Definition competition_object (m : value) : value := field m "competition" (VDict []).
Definition home_id (m : value) : value := field (home_team m) "id" VNone.
Definition away_id (m : value) : value := field (away_team m) "id" VNone.
Definition home_name (m : value) : value := field (home_team m) "name" (VStr "").
Definition away_name (m : value) : value := field (away_team m) "name" (VStr "").
Definition home_score (m : value) : value := field (full_time m) "home" VNone.
Definition away_score (m : value) : value := field (full_time m) "away" VNone.
Definition competition_name (m : value) : value :=
  field (competition_object m) "name" (VStr "").

(** An optional integer: an [int] or [None]. *)
Definition is_score (v : value) : bool :=
  match v with VNone | VInt _ => true | _ => false end.

(** A raw match: an object whose [homeTeam], [awayTeam], [score],
    [score.fullTime] and [competition] are objects when they are there,
    and whose full-time scores are optional integers.  Every key may be
    missing, and [utcDate] may hold anything. *)
Definition raw_match (m : value) : bool :=
  is_dict m && is_dict (home_team m) && is_dict (away_team m)
  && is_dict (score_object m) && is_dict (full_time m)
  && is_dict (competition_object m)
  && is_score (home_score m) && is_score (away_score m).

(** The result the [if]/[elif]/[else] ladder gives to two optional
    integers. *)
Definition result_of (goals_for goals_against : value) : option result_code :=
  match goals_for, goals_against with
  | VInt f, VInt a => Some (if a <? f then W else if f =? a then D else L)
  | _, _ => None
  end.

(** A sample match, Arsenal (57) at home to Chelsea (61), 2-1. *)
Definition sample_match (status : string) (home away : value) : value :=
  VDict [("status", VStr status);
         ("utcDate", VStr "2023-08-12T11:30:00Z");
         ("homeTeam", VDict [("id", VInt 57); ("name", VStr "Arsenal FC")]);
         ("awayTeam", VDict [("id", VInt 61); ("name", VStr "Chelsea FC")]);
         ("score", VDict [("fullTime", VDict [("home", home); ("away", away)])]);
         ("competition", VDict [("name", VStr "Premier League")])].

(** A stand-in for the library: timestamps kept as their text, and
    containers rendered as the empty string. *)
Definition text_datetime (s : string) : option string :=
  if String.eqb s "" then None else Some s.
Definition no_container_str (v : value) : string := "".

(** ** The four operations, side by side *)

Inductive operation : Type := Teams | TeamInfo | Matches | Standings.

Definition body_of (op : operation) : call -> M value :=
  match op with
  | Teams => get_teams_in_league_body
  | TeamInfo => get_team_by_id_body
  | Matches => get_last_matches_for_team_body
  | Standings => get_league_standings_body
  end.

(** The [maxsize] of each decorator. *)
Definition maxsize_of (op : operation) : nat :=
  match op with
  | Teams | Standings => 128%nat
  | TeamInfo | Matches => 256%nat
  end.

Definition run (op : operation) : call -> lru -> world -> res value * lru * world :=
  match op with
  | Teams => get_teams_in_league
  | TeamInfo => get_team_by_id
  | Matches => get_last_matches_for_team
  | Standings => get_league_standings
  end.

(** The signature of each [def]. *)
Definition params_of (op : operation) : list (string * option arg) :=
  match op with
  | Teams | Standings => [("league_code", None); ("season", Some ANone)]
  | TeamInfo => [("team_id", None)]
  | Matches => [("team_id", None); ("season", Some ANone); ("limit", Some (AInt 15))]
  end.

(** The empty result of each operation: [[]], and [{}] for the team. *)
Definition empty_of (op : operation) : value :=
  match op with
  | TeamInfo => VDict []
  | _ => VList []
  end.

(** Each body is: bind the arguments, build the endpoint, fetch once,
    and work on the document without touching the world again.  The
    endpoint a call asks for, when the body gets as far as the fetch: *)
Definition endpoint_of (op : operation) (c : call) : res string :=
  ps <- bind_params (params_of op) c ;;
  match op, ps with
  | Teams, [league_code; season] =>
      Ok ("competitions/" +:+ fmt league_code +:+ "/teams?season="
          +:+ fmt (default_season season))
  | TeamInfo, [team_id] => Ok ("teams/" +:+ fmt team_id)
  | Matches, [team_id; season; limit] =>
      twice <- arg_double limit ;;
      Ok ("teams/" +:+ fmt team_id +:+ "/matches?season=" +:+ fmt (default_season season)
          +:+ "&limit=" +:+ fmt twice)
  | Standings, [league_code; season] =>
      Ok ("competitions/" +:+ fmt league_code +:+ "/standings?season="
          +:+ fmt (default_season season))
  | _, _ => Raise TypeError
  end.

(** What [get_last_matches_for_team] makes of the document, for a given
    [limit]. *)
Definition matches_result (limit : arg) (data : value) : res value :=
  missing <- lacks data "matches" ;;
  if missing then Ok (VList [])
  else
    all_matches <- py_getitem data "matches" ;;
    ms <- py_iter all_matches ;;
    finished_matches <- keep_finished ms ;;
    finished_matches <- py_slice_to finished_matches limit ;;
    Ok (VList finished_matches).

(** What each body makes of the document fetched. *)
Definition result_of_document (op : operation) (c : call) (data : value) : res value :=
  match op with
  | Teams =>
      missing <- lacks data "teams" ;;
      if missing then Ok (VList []) else py_getitem data "teams"
  | TeamInfo => Ok (if truthy data then data else VDict [])
  | Matches =>
      ps <- bind_params (params_of Matches) c ;;
      matches_result (nth 2 ps ANone) data
  | Standings =>
      missing <- lacks data "standings" ;;
      if missing then Ok (VList [])
      else
        all_standings <- py_getitem data "standings" ;;
        standings <- py_iter all_standings ;;
        found <- first_total standings ;;
        Ok (default (VList []) found)
  end.

Definition BASE_URL : string := "https://api.football-data.org/v4/".

(** ** Reading the world *)

Definition is_request (e : event) : bool :=
  match e with ERequest _ => true | _ => false end.

Definition is_flash (e : event) : bool :=
  match e with EFlash _ _ => true | _ => false end.

(** The requests sent and the messages flashed, in order. *)
Definition network_calls (t : list event) : list event := List.filter is_request t.
Definition advisories (t : list event) : list event := List.filter is_flash t.

(** The answers [football_data_get] turns into [None]: an exception of
    [requests.get] (timeout, connection error), a 4xx or 5xx status (429,
    403 and 404 among them), a body that does not decode. *)
Definition failed (h : http_result) : bool :=
  match h with
  | RequestException _ => true
  | Responded r =>
      ((400 <=? status_code r) && (status_code r <? 600))
      || match json r with inl _ => true | inr _ => false end
  end.

(** The 404, which is not reported. *)
Definition silent (h : http_result) : bool :=
  match h with
  | Responded r => status_code r =? 404
  | RequestException _ => false
  end.

(** The document of an answer that did not fail. *)
Definition document (h : http_result) : option value :=
  match h with
  | Responded r =>
      if (400 <=? status_code r) && (status_code r <? 600) then None
      else match json r with inr data => Some data | inl _ => None end
  | RequestException _ => None
  end.

(** The next answer of the upstream server to [url]. *)
Definition next_answer (w : world) (url : string) : http_result :=
  upstream w (served w) url.

(** A run of calls to one operation, results dropped. *)
Fixpoint run_calls (op : operation) (cs : list call) (c : lru) (w : world)
    : lru * world :=
  match cs with
  | [] => (c, w)
  | k :: cs' => let '(_, c', w') := run op k c w in run_calls op cs' c' w'
  end.

(** ** The shape of the match and standings documents *)

Definition status_of (m : value) : value := field m "status" VNone.

Definition finished (m : value) : bool := py_eq (status_of m) (VStr "FINISHED").

(** The document of a matches answer holds the matches [ms]: it is an
    object whose [matches], when the key is there, is the list [ms] of
    objects; without the key it holds none. *)
Definition holds_matches (data : value) (ms : list value) : Prop :=
  exists d, data = VDict d /\
    ((dict_get d "matches" = None /\ ms = [])
     \/ (dict_get d "matches" = Some (VList ms)
         /\ Forall (fun m => is_dict m = true) ms)).

(** The URL of the matches request for a limit. *)
Definition matches_url (team_id season : arg) (limit : Z) : string :=
  BASE_URL +:+ "teams/" +:+ fmt team_id +:+ "/matches?season="
  +:+ fmt (default_season season) +:+ "&limit=" +:+ pretty (limit * 2).

(** The URL of the standings request. *)
Definition standings_url (league_code season : arg) : string :=
  BASE_URL +:+ "competitions/" +:+ fmt league_code +:+ "/standings?season="
  +:+ fmt (default_season season).

(** A standings group that is an object with a [type] other than TOTAL. *)
Definition other_group (e : value) : bool :=
  match e with
  | VDict d =>
      match dict_get d "type" with
      | Some ty => negb (py_eq ty (VStr "TOTAL"))
      | None => false
      end
  | _ => false
  end.

(** A standings group of type TOTAL with its [table]. *)
Definition total_group (e table : value) : Prop :=
  exists d, e = VDict d /\ dict_get d "type" = Some (VStr "TOTAL")
            /\ dict_get d "table" = Some table.

(** ** Two states of a cache, for the eviction argument *)

(** While the first key [k0] is in the cache it is the least recently
    used entry, and the other entries are keys of [ks], those seen at
    least. *)
Definition first_is_oldest (maxsize : nat) (k0 : call) (ks : list call)
    (seen : list call) (c : lru) : Prop :=
  exists v0 c', c = (k0, v0) :: c'
    /\ NoDup c'.*1 /\ (c'.*1 ⊆ ks) /\ (seen ⊆ c'.*1)
    /\ (length c' < maxsize)%nat.

(** Once the first key is out, the cache holds all of [ks]. *)
Definition first_is_out (k0 : call) (ks : list call) (c : lru) : Prop :=
  (k0 ∉ c.*1) /\ (ks ⊆ c.*1).

(** ** Samples *)

(** Ten matches, six of them FINISHED. *)
Definition ten_matches : list value :=
  map (fun st => sample_match st (VInt 1) (VInt 0))
    ["FINISHED"; "TIMED"; "FINISHED"; "FINISHED"; "POSTPONED";
     "FINISHED"; "SCHEDULED"; "FINISHED"; "FINISHED"; "IN_PLAY"].

(** A standings document with a HOME group before the TOTAL group. *)
Definition two_groups : list (string * value) :=
  [("standings",
    VList [VDict [("type", VStr "HOME"); ("table", VList [VStr "home rows"])];
           VDict [("type", VStr "TOTAL"); ("table", VList [VStr "total rows"])]])].

(** The calls [f(0)], [f(1)], ... with one positional argument. *)
Definition numbered (i : nat) : call :=
  {| args := [AInt (Z.of_nat i)]; kwargs := [] |}.


Definition positional (a : list arg) : call := {| args := a; kwargs := [] |}.

(** A server that answers every request with status [code] and the
    document [data]. *)
Definition steady_world (code : Z) (data : value) : world :=
  {| now := 1000;
     LAST_REQUEST_TIME := 0;
     upstream := fun _ _ =>
       Responded {| status_code := code; http_error_msg := "error"; json := inr data |};
     served := 0;
     trace := [] |}.

(** ** More on the shape of a match *)

(** Every value the loop body calls [get] on is an object. *)
Definition objects_ok (m : value) : bool :=
  is_dict m && is_dict (home_team m) && is_dict (away_team m)
  && is_dict (score_object m) && is_dict (full_time m)
  && is_dict (competition_object m).

(** Two goal counts the [if] block can handle: one is [None], or [>] is
    defined between their types. *)
Definition comparable (a b : value) : bool :=
  match a, b with
  | VNone, _ | _, VNone => true
  | _, _ => match py_gt a b with Some _ => true | None => false end
  end.

(** The result seen from the other side. *)
Definition mirror (r : option result_code) : option result_code :=
  match r with
  | Some W => Some L
  | Some L => Some W
  | Some D => Some D
  | None => None
  end.

(** ** The routes *)

(** The parameters of a request, [request.args] or [request.form]: each
    key is there with its text, or missing. *)
Record query : Type := {
  league_id_arg : option string;
  team_id_arg : option string;
  season_arg : option string;
  limit_arg : option string
}.

(** What a JSON route returns: [jsonify(body), status], or for the
    error it caught [jsonify({'error': str(e)}), status], kept as the
    exception. *)
Inductive reply : Type :=
| Json (status : Z) (body : value)
| JsonError (status : Z) (e : exn).

(** The list comprehension of [api_teams]. *)
Fixpoint simple_teams (teams : list value) : res (list value) :=
  match teams with
  | [] => Ok []
  | t :: rest =>
      i <- py_get t "id" VNone ;;
      n <- py_get t "name" VNone ;;
      simple <- simple_teams rest ;;
      Ok (VDict [("id", i); ("name", n)] :: simple)
  end.

(** [api_teams]: every exception of the [try] block is caught. *)
Definition api_teams (q : query) (c : lru) (w : world) : reply * lru * world :=
  let league_id := league_id_arg q in
  let season := default "2023" (season_arg q) in
  match league_id with
  | Some l =>
      if negb (String.eqb l "") then
        match get_teams_in_league (positional [AStr l; AStr season]) c w with
        | (Ok teams, c', w') =>
            match (ts <- py_iter teams ;; simple_teams ts) with
            | Ok simple => (Json 200 (VDict [("teams", VList simple)]), c', w')
            | Raise e => (JsonError 500 e, c', w')
            end
        | (Raise e, c', w') => (JsonError 500 e, c', w')
        end
      else (Json 400 (VDict [("error", VStr "league_id requerido")]), c, w)
  | None => (Json 400 (VDict [("error", VStr "league_id requerido")]), c, w)
  end.

(** The entry of a team that [api_teams] sends. *)
Definition id_and_name (t : value) : value :=
  VDict [("id", field t "id" VNone); ("name", field t "name" VNone)].

(** The four caches of the process. *)
Record caches : Type := {
  teams_cache : lru;
  team_cache : lru;
  matches_cache : lru;
  standings_cache : lru
}.

Definition cache_of (op : operation) (cs : caches) : lru :=
  match op with
  | Teams => teams_cache cs
  | TeamInfo => team_cache cs
  | Matches => matches_cache cs
  | Standings => standings_cache cs
  end.

Definition with_cache (op : operation) (c : lru) (cs : caches) : caches :=
  match op with
  | Teams =>
      {| teams_cache := c; team_cache := team_cache cs;
         matches_cache := matches_cache cs; standings_cache := standings_cache cs |}
  | TeamInfo =>
      {| teams_cache := teams_cache cs; team_cache := c;
         matches_cache := matches_cache cs; standings_cache := standings_cache cs |}
  | Matches =>
      {| teams_cache := teams_cache cs; team_cache := team_cache cs;
         matches_cache := c; standings_cache := standings_cache cs |}
  | Standings =>
      {| teams_cache := teams_cache cs; team_cache := team_cache cs;
         matches_cache := matches_cache cs; standings_cache := c |}
  end.

(** A computation of a route: it uses the caches and the world, and an
    exception it does not catch ends it. *)
Definition R (A : Type) : Type := caches -> world -> res A * caches * world.

Definition R_ret {A : Type} (a : A) : R A := fun cs w => (Ok a, cs, w).
Definition R_bind {A B : Type} (m : R A) (f : A -> R B) : R B := fun cs w =>
  match m cs w with
  | (Ok a, cs', w') => f a cs' w'
  | (Raise e, cs', w') => (Raise e, cs', w')
  end.
Definition R_lift {A : Type} (r : res A) : R A := fun cs w => (r, cs, w).

(** A positional call of a fetch operation, on its own cache. *)
Definition call_op (op : operation) (a : list arg) : R value := fun cs w =>
  let '(r, c', w') := run op (positional a) (cache_of op cs) w in
  (r, with_cache op c' cs, w').

Declare Scope R_scope.
Delimit Scope R_scope with R.
Bind Scope R_scope with R.
Notation "x <- m ;; k" := (R_bind m (fun x => k))
  (at level 100, m at next level, right associativity) : R_scope.

(** [x or d] for an optional text. *)
Definition or_default (x : option string) (d : string) : string :=
  match x with
  | Some s => if String.eqb s "" then d else s
  | None => d
  end.

Definition nonempty (s : string) : bool := negb (String.eqb s "").

Section Routes.

Variable datetime : Type.
Variable fromisoformat : string -> option datetime.
Variable container_str : value -> string.

(** [int(s)] for a [str]: the grammar of Python's integer literals with
    its signs, blanks, underscores and Unicode digits is left to the
    library; [None] stands for its [ValueError]. *)
Variable py_int : string -> option Z.

(** The keyword arguments [index] computes for [render_template]; the
    constants [leagues] and [seasons] are left out. *)
Record page : Type := {
  teams : value;
  selected_league : string;
  selected_team : string;
  selected_season : string;
  team_info : value;
  matches : list (normalized datetime);
  standings : value;
  limit : Z
}.

(** What [index] returns: the page to render, or the redirect of a POST
    with the parameters of its URL. *)
Inductive index_reply : Type :=
| Render (p : page)
| RedirectTo (league_id team_id season limit : string).

(** [try: limit = int(...) except Exception: limit = 15]. *)
Definition parse_limit (l : option string) : Z :=
  default 15 (py_int (default "15" l)).

Open Scope R_scope.

(** The GET branch of [index]. *)
Definition index_get (q : query) : R page :=
  let league_id := default "" (league_id_arg q) in
  let team_id := default "" (team_id_arg q) in
  let season := default "2023" (season_arg q) in
  let limit := parse_limit (limit_arg q) in
  teams <- (if nonempty league_id
            then call_op Teams [AStr league_id; AStr season]
            else R_ret (VList [])) ;;
  team <- (if nonempty team_id then
             team_info <- call_op TeamInfo [AStr team_id] ;;
             matches_data <- call_op Matches [AStr team_id; AStr season; AInt limit] ;;
             ms <- R_lift (py_iter matches_data) ;;
             matches <- R_lift (build_match_list_from_matches datetime fromisoformat
                                  container_str ms (VStr team_id)) ;;
             R_ret (team_info, matches)
           else R_ret (VDict [], [])) ;;
  standings <- (if nonempty league_id && nonempty season
                then call_op Standings [AStr league_id; AStr season]
                else R_ret (VList [])) ;;
  R_ret {| teams := teams;
           selected_league := league_id;
           selected_team := team_id;
           selected_season := season;
           team_info := fst team;
           matches := snd team;
           standings := standings;
           limit := limit |}.

(** [index]: a POST is answered by a redirect to the GET URL. *)
Definition index (post : bool) (form args : query) : R index_reply :=
  if post then
    R_ret (RedirectTo (or_default (league_id_arg form) "")
                      (or_default (team_id_arg form) "")
                      (or_default (season_arg form) "2023")
                      (or_default (limit_arg form) "15"))
  else
    p <- index_get args ;; R_ret (Render p).

Close Scope R_scope.

End Routes.

Arguments teams {datetime} p.
Arguments selected_league {datetime} p.
Arguments selected_team {datetime} p.
Arguments selected_season {datetime} p.
Arguments team_info {datetime} p.
Arguments matches {datetime} p.
Arguments standings {datetime} p.
Arguments limit {datetime} p.

(** The caches of a fresh process. *)
Definition no_caches : caches :=
  {| teams_cache := []; team_cache := []; matches_cache := []; standings_cache := [] |}.

(** A stand-in for [int]: plain decimal digits only. *)
Fixpoint digits (s : string) (acc : Z) : option Z :=
  match s with
  | EmptyString => Some acc
  | String a s' =>
      let n := Z.of_N (N_of_ascii a) - 48 in
      if (0 <=? n) && (n <=? 9) then digits s' (acc * 10 + n) else None
  end.

Definition digits_only (s : string) : option Z :=
  if String.eqb s "" then None else digits s 0.

(** ** Order of last use *)

(** The distinct calls of a list of calls, each kept at its last
    occurrence: the calls in the order of their last use, the least
    recently used first. *)
Fixpoint recency (l : list call) : list call :=
  match l with
  | [] => []
  | k :: l' => if bool_decide (k ∈ l') then recency l' else k :: recency l'
  end.

(** The calls of a run that returned, with the values they returned, in
    the order they were made; a call that raised is left out. *)
Fixpoint returned_calls (op : operation) (cs : list call) (c : lru) (w : world)
    : list (call * value) :=
  match cs with
  | [] => []
  | k :: cs' =>
      let '(r, c', w') := run op k c w in
      match r with
      | Ok v => (k, v) :: returned_calls op cs' c' w'
      | Raise _ => returned_calls op cs' c' w'
      end
  end.

(** * Properties of the normaliser *)

Section NormalizerFacts.

Variable datetime : Type.
Variable fromisoformat : string -> option datetime.
Variable container_str : value -> string.

Local Abbreviation normalize := (normalize_match datetime fromisoformat container_str).
Local Abbreviation build := (build_match_list_from_matches datetime fromisoformat container_str).
Local Abbreviation loop := (build_loop datetime fromisoformat container_str).
Local Abbreviation str := (py_str container_str).
Local Abbreviation parse := (parse_date datetime fromisoformat).

Lemma py_get_field (v : value) (k : string) (dflt : value) :
  is_dict v = true -> py_get v k dflt = Ok (field v k dflt).
Proof. destruct v; simpl; congruence. Qed.

Lemma py_get_not_dict (v : value) (k : string) (dflt : value) :
  is_dict v = false -> py_get v k dflt = Raise AttributeError.
Proof. destruct v; simpl; congruence. Qed.

Lemma classify_scores (f a : value) :
  is_score f = true -> is_score a = true -> classify f a = Ok (result_of f a).
Proof.
  destruct f, a; simpl; try congruence; intros _ _.
  destruct (z0 <? z); [reflexivity|].
  destruct (z =? z0); reflexivity.
Qed.

(** On a raw match the loop body returns, and this is the record it
    builds. *)
Lemma normalize_raw (m team_id : value) :
  raw_match m = true ->
  normalize m team_id =
    let home := String.eqb (str team_id) (str (home_id m)) in
    let goals_for := if home then home_score m else away_score m in
    let goals_against := if home then away_score m else home_score m in
    Ok {| date := parse (utc_date m);
          opponent := if home then away_name m else home_name m;
          goals_for := goals_for;
          goals_against := goals_against;
          result := result_of goals_for goals_against;
          is_home := home;
          status := "Finalizado";
          competition := competition_name m;
          raw := m |}.
Proof.
  unfold raw_match. rewrite !andb_true_iff.
  intros [[[[[[[Hm Hh] Ha] Hs] Hf] Hc] Hhs] Has].
  unfold normalize_match.
  rewrite !(py_get_field m) by assumption. simpl res_bind.
  fold (home_team m) (away_team m) (score_object m) (utc_date m).
  rewrite (py_get_field (score_object m)) by assumption. simpl res_bind.
  fold (full_time m).
  rewrite !(py_get_field (home_team m)), !(py_get_field (away_team m)),
    !(py_get_field (full_time m)) by assumption.
  simpl res_bind.
  fold (home_id m) (away_id m) (home_name m) (away_name m)
    (home_score m) (away_score m) (competition_object m).
  destruct (String.eqb (str team_id) (str (home_id m))); cbv zeta.
  - rewrite classify_scores by assumption. simpl res_bind.
    rewrite (py_get_field (competition_object m)) by assumption. reflexivity.
  - rewrite classify_scores by assumption. simpl res_bind.
    rewrite (py_get_field (competition_object m)) by assumption. reflexivity.
Qed.

(** Whenever the loop body returns at all, the result is [None]
    exactly when one of the two goal counts is [None]. *)
Lemma classify_none (f a : value) (r : option result_code) :
  classify f a = Ok r -> (r = None <-> f = VNone \/ a = VNone).
Proof.
  unfold classify.
  destruct f, a; try (intros [= <-]; split; [intros _|]; auto; fail);
    destruct (py_gt _ _) as [[|]|]; try discriminate;
    try destruct (py_eq _ _); intros [= <-];
    (split; [discriminate | intros [|]; discriminate]).
Qed.

(** So it is for every match on which the loop body returns, raw or not. *)
Lemma normalize_result_none (m team_id : value) (r : normalized datetime) :
  normalize m team_id = Ok r ->
  (result r = None <-> goals_for r = VNone \/ goals_against r = VNone).
Proof.
  unfold normalize_match.
  repeat match goal with
         | |- context [res_bind (py_get ?v ?k ?d) _] =>
             destruct (py_get v k d); simpl res_bind; [|discriminate]
         end.
  destruct (String.eqb _ _);
    (destruct (classify _ _) as [res|] eqn:E; simpl res_bind; [|discriminate]);
    repeat match goal with
           | |- context [res_bind (py_get ?v ?k ?d) _] =>
               destruct (py_get v k d); simpl res_bind; [|discriminate]
           end;
    intros [= <-]; simpl; exact (classify_none _ _ _ E).
Qed.

(** The loop is a left-to-right traversal: with the records built so far
    in [acc], it returns [acc] followed by one record per match. *)
Lemma build_loop_spec (ms : list value) (team_id : value) :
  forall acc rs,
    Forall2 (fun m r => normalize m team_id = Ok r) ms rs ->
    loop ms team_id acc = Ok (acc ++ rs).
Proof.
  induction ms as [|m ms IH]; intros acc rs H; inversion H; subst; simpl.
  - by rewrite app_nil_r.
  - match goal with E : normalize _ _ = Ok _ |- _ => rewrite E end. simpl.
    erewrite IH by eassumption. by rewrite <- app_assoc.
Qed.

(** An exception in one iteration is the outcome of the whole call. *)
Lemma build_loop_raise (ms1 ms2 : list value) (m team_id : value) (e : exn) :
  forall acc rs,
    Forall2 (fun m r => normalize m team_id = Ok r) ms1 rs ->
    normalize m team_id = Raise e ->
    loop (ms1 ++ m :: ms2) team_id acc = Raise e.
Proof.
  induction ms1 as [|m1 ms1 IH]; intros acc rs H E; inversion H; subst; simpl.
  - by rewrite E.
  - match goal with E' : normalize m1 _ = Ok _ |- _ => rewrite E' end. simpl.
    eapply IH; eassumption.
Qed.

Lemma parse_date_some (v : value) (d : datetime) :
  parse v = Some d ->
  exists s, v = VStr s /\ fromisoformat (str_replace "Z"%char "+00:00" s) = Some d.
Proof.
  unfold parse_date. destruct (negb (truthy v)); [discriminate|].
  destruct v; try discriminate. eauto.
Qed.

Lemma result_of_none (f a : value) :
  is_score f = true -> is_score a = true ->
  (result_of f a = None <-> f = VNone \/ a = VNone).
Proof.
  destruct f, a; simpl; try discriminate; intros _ _;
    (split; [try discriminate; auto | intros [|]; discriminate || reflexivity]).
Qed.

Lemma raw_match_scores (m : value) :
  raw_match m = true -> is_score (home_score m) = true /\ is_score (away_score m) = true.
Proof.
  unfold raw_match. rewrite !andb_true_iff. tauto.
Qed.

(** C1.  For every raw match the normalised result is W (WIN) when
    goals_for > goals_against, D (DRAW) when they are equal, L (LOSS) when
    goals_for < goals_against, and it is None (UNKNOWN) if and only if at
    least one of goals_for, goals_against is None: the comparison is made
    only when both are there. *)
Theorem result_classification (m team_id : value) :
  raw_match m = true ->
  exists r, normalize m team_id = Ok r /\
    is_score (goals_for r) = true /\ is_score (goals_against r) = true /\
    (forall f a, goals_for r = VInt f -> goals_against r = VInt a ->
       (a < f -> result r = Some W) /\
       (f = a -> result r = Some D) /\
       (f < a -> result r = Some L)) /\
    (result r = None <-> goals_for r = VNone \/ goals_against r = VNone).
Proof.
  intros Hraw. destruct (raw_match_scores m Hraw) as [Hh Ha].
  rewrite (normalize_raw m team_id Hraw). cbv zeta.
  eexists; split; [reflexivity|]. simpl.
  assert (is_score (if String.eqb (str team_id) (str (home_id m))
                    then home_score m else away_score m) = true) as Hf
    by (destruct (String.eqb _ _); assumption).
  assert (is_score (if String.eqb (str team_id) (str (home_id m))
                    then away_score m else home_score m) = true) as Hg
    by (destruct (String.eqb _ _); assumption).
  split; [assumption|]. split; [assumption|]. split.
  - intros f a Ef Ea. rewrite Ef, Ea. simpl.
    destruct (Z.ltb_spec a f), (Z.eqb_spec f a);
      repeat split; intros; (reflexivity || lia).
  - apply result_of_none; assumption.
Qed.

(** C2.  The role is decided by string equality: is_home is true iff
    str(team_id) equals str(homeTeam.id), and the goals and the opponent
    follow the role.  In particular a match with homeTeam.id = 57 and
    awayTeam.id = 61 seen from 61 gives is_home = False, goals_for = the
    away score, goals_against = the home score and opponent = the home
    team's name. *)
Theorem home_away_role (m team_id : value) :
  raw_match m = true ->
  exists r, normalize m team_id = Ok r /\
    (is_home r = true <-> str team_id = str (home_id m)) /\
    (is_home r = true ->
       goals_for r = home_score m /\ goals_against r = away_score m /\
       opponent r = away_name m) /\
    (is_home r = false ->
       goals_for r = away_score m /\ goals_against r = home_score m /\
       opponent r = home_name m) /\
    (home_id m = VInt 57 -> away_id m = VInt 61 -> str team_id = "61" ->
       is_home r = false /\
       goals_for r = away_score m /\ goals_against r = home_score m /\
       opponent r = home_name m).
Proof.
  intros Hraw. rewrite (normalize_raw m team_id Hraw). cbv zeta.
  eexists; split; [reflexivity|]. simpl.
  split; [apply String.eqb_eq|].
  split; [intros ->; auto|].
  split; [intros ->; auto|].
  intros Hid _ Hstr. rewrite Hid, Hstr.
  change (String.eqb "61" (str (VInt 57))) with false. auto.
Qed.

(** C10.  When str(team_id) differs from str(homeTeam.id) the record is an
    away record whatever the away team is, also when the perspective team
    is on neither side: is_home = False, goals_for = the away score,
    goals_against = the home score, opponent = the home team's name. *)
Theorem away_by_default (m team_id : value) :
  raw_match m = true ->
  str team_id <> str (home_id m) ->
  exists r, normalize m team_id = Ok r /\
    is_home r = false /\
    goals_for r = away_score m /\ goals_against r = home_score m /\
    opponent r = home_name m.
Proof.
  intros Hraw Hne. rewrite (normalize_raw m team_id Hraw). cbv zeta.
  apply String.eqb_neq in Hne. rewrite Hne.
  eexists; split; [reflexivity|]. simpl. auto.
Qed.

End NormalizerFacts.

(** The theorems at the sample match, with timestamps kept as text. *)

Lemma result_classification_witness :
  let m := sample_match "FINISHED" (VInt 2) (VInt 1) in
  raw_match m = true /\
  exists r, normalize_match string text_datetime no_container_str m (VStr "61") = Ok r /\
    is_score (goals_for r) = true /\ is_score (goals_against r) = true /\
    (forall f a, goals_for r = VInt f -> goals_against r = VInt a ->
       (a < f -> result r = Some W) /\
       (f = a -> result r = Some D) /\
       (f < a -> result r = Some L)) /\
    (result r = None <-> goals_for r = VNone \/ goals_against r = VNone).
Proof.
  split; [reflexivity|].
  apply (result_classification string text_datetime no_container_str).
  reflexivity.
Defined.

Lemma home_away_role_witness :
  let m := sample_match "FINISHED" (VInt 2) (VInt 1) in
  raw_match m = true /\
  exists r, normalize_match string text_datetime no_container_str m (VInt 61) = Ok r /\
    (is_home r = true <->
       py_str no_container_str (VInt 61) = py_str no_container_str (home_id m)) /\
    (is_home r = true ->
       goals_for r = home_score m /\ goals_against r = away_score m /\
       opponent r = away_name m) /\
    (is_home r = false ->
       goals_for r = away_score m /\ goals_against r = home_score m /\
       opponent r = home_name m) /\
    (home_id m = VInt 57 -> away_id m = VInt 61 ->
     py_str no_container_str (VInt 61) = "61" ->
       is_home r = false /\
       goals_for r = away_score m /\ goals_against r = home_score m /\
       opponent r = home_name m).
Proof.
  split; [reflexivity|].
  apply (home_away_role string text_datetime no_container_str).
  reflexivity.
Defined.

Lemma away_by_default_witness :
  let m := sample_match "FINISHED" (VInt 2) (VInt 1) in
  raw_match m = true /\
  py_str no_container_str (VStr "999") <> py_str no_container_str (home_id m) /\
  exists r, normalize_match string text_datetime no_container_str m (VStr "999") = Ok r /\
    is_home r = false /\
    goals_for r = away_score m /\ goals_against r = home_score m /\
    opponent r = home_name m.
Proof.
  split; [reflexivity|].
  assert (py_str no_container_str (VStr "999")
          <> py_str no_container_str (home_id (sample_match "FINISHED" (VInt 2) (VInt 1))))
    as Hne by (vm_compute; discriminate).
  split; [exact Hne|].
  apply (away_by_default string text_datetime no_container_str);
    [reflexivity | exact Hne].
Defined.

(** Outside the raw matches: an explicit null where an object is expected
    has no [get] method, and the exception ends the whole call, records
    built so far included. *)
Example null_team_raises :
  build_match_list_from_matches string text_datetime no_container_str
    [sample_match "FINISHED" (VInt 2) (VInt 1); VDict [("homeTeam", VNone)]]
    (VStr "57") = Raise AttributeError.
Proof. reflexivity. Qed.

(** Scores of unordered types meet the [TypeError] of [>]. *)
Example text_score_raises :
  normalize_match string text_datetime no_container_str
    (sample_match "FINISHED" (VStr "2") (VInt 1)) (VStr "57") = Raise TypeError.
Proof. reflexivity. Qed.

(** * Properties of the fetch layer *)

(** ** [football_data_get] *)

Lemma network_calls_app (t1 t2 : list event) :
  network_calls (t1 ++ t2) = network_calls t1 ++ network_calls t2.
Proof. apply List.filter_app. Qed.

Lemma advisories_app (t1 t2 : list event) :
  advisories (t1 ++ t2) = advisories t1 ++ advisories t2.
Proof. apply List.filter_app. Qed.

Lemma rate_limited_request_trace (w : world) :
  let w' := rate_limited_request w in
  network_calls (trace w') = network_calls (trace w)
  /\ advisories (trace w') = advisories (trace w)
  /\ upstream w' = upstream w /\ served w' = served w.
Proof.
  unfold rate_limited_request. destruct (_ <? _); simpl; auto.
  rewrite network_calls_app, advisories_app. simpl.
  rewrite !app_nil_r. auto.
Qed.

(** The limiter leaves at least [REQUEST_DELAY] between the stamp of the
    last request and the new one. *)
Lemma rate_limited_request_gap (w : world) :
  let w' := rate_limited_request w in
  LAST_REQUEST_TIME w + REQUEST_DELAY <= LAST_REQUEST_TIME w' /\ now w' = LAST_REQUEST_TIME w'.
Proof.
  unfold rate_limited_request, REQUEST_DELAY.
  destruct (Z.ltb_spec (now w - LAST_REQUEST_TIME w) 6); simpl; lia.
Qed.

(** One call of [football_data_get] sends exactly one request, to the
    endpoint under the base URL, and flashes at most one message. *)
Lemma football_data_get_trace (endpoint : string) (w : world) :
  let '(data, w') := football_data_get endpoint w in
  network_calls (trace w') = network_calls (trace w) ++ [ERequest (BASE_URL +:+ endpoint)]
  /\ served w' = S (served w) /\ upstream w' = upstream w.
Proof.
  unfold football_data_get, requests_get.
  destruct (rate_limited_request_trace w) as (Hn & _ & Hu & Hs). cbv zeta in *.
  rewrite Hu, Hs.
  set (w1 := rate_limited_request w) in *.
  clearbody w1. unfold BASE_URL in *.
  destruct (upstream w (served w) _) as [r|e];
    [destruct (status_code r =? 429), (status_code r =? 403), (status_code r =? 404),
       ((400 <=? status_code r) && (status_code r <? 600)), (json r)|];
    simpl; rewrite ?network_calls_app; simpl; rewrite ?app_nil_r, Hn; auto.
Qed.

(** An answer that did not fail is handed over as it is, in silence. *)
Lemma football_data_get_document (endpoint : string) (w : world) (data : value) :
  document (next_answer w (BASE_URL +:+ endpoint)) = Some data ->
  exists w', football_data_get endpoint w = (data, w')
    /\ advisories (trace w') = advisories (trace w).
Proof.
  unfold document, next_answer, football_data_get, requests_get, BASE_URL.
  destruct (rate_limited_request_trace w) as (_ & Ha & Hu & Hs). cbv zeta in *.
  rewrite Hu, Hs. set (w1 := rate_limited_request w) in *. clearbody w1.
  destruct (upstream w (served w) _) as [r|e]; [|discriminate].
  destruct (Z.eqb_spec (status_code r) 429) as [E|_]; [rewrite E; discriminate|].
  destruct (Z.eqb_spec (status_code r) 403) as [E|_]; [rewrite E; discriminate|].
  destruct (Z.eqb_spec (status_code r) 404) as [E|_]; [rewrite E; discriminate|].
  destruct ((400 <=? status_code r) && (status_code r <? 600)); [discriminate|].
  destruct (json r) as [e|d]; [discriminate|]. intros [= ->].
  eexists; split; [reflexivity|]. simpl.
  rewrite advisories_app, Ha. simpl. apply app_nil_r.
Qed.

(** A failed answer gives [None], with one message unless it is a 404. *)
Lemma football_data_get_failed (endpoint : string) (w : world) :
  failed (next_answer w (BASE_URL +:+ endpoint)) = true ->
  exists w', football_data_get endpoint w = (VNone, w')
    /\ if silent (next_answer w (BASE_URL +:+ endpoint))
       then advisories (trace w') = advisories (trace w)
       else exists message category,
         advisories (trace w') = advisories (trace w) ++ [EFlash message category].
Proof.
  unfold failed, silent, next_answer, football_data_get, requests_get, BASE_URL.
  destruct (rate_limited_request_trace w) as (_ & Ha & Hu & Hs). cbv zeta in *.
  rewrite Hu, Hs. set (w1 := rate_limited_request w) in *. clearbody w1.
  destruct (upstream w (served w) _) as [r|e]; intros Hf.
  - destruct (Z.eqb_spec (status_code r) 429) as [E|_].
    { rewrite E. eexists; split; [reflexivity|]. simpl.
      rewrite !advisories_app, Ha. simpl. rewrite app_nil_r. eauto. }
    destruct (Z.eqb_spec (status_code r) 403) as [E|_].
    { rewrite E. eexists; split; [reflexivity|]. simpl.
      rewrite !advisories_app, Ha. simpl. rewrite app_nil_r. eauto. }
    destruct (Z.eqb_spec (status_code r) 404) as [E|_].
    { eexists; split; [reflexivity|]. simpl.
      rewrite !advisories_app, Ha. simpl. apply app_nil_r. }
    destruct ((400 <=? status_code r) && (status_code r <? 600)).
    { eexists; split; [reflexivity|]. simpl.
      rewrite !advisories_app, Ha. simpl. rewrite app_nil_r. eauto. }
    simpl in Hf. destruct (json r); [|discriminate].
    eexists; split; [reflexivity|]. simpl.
    rewrite !advisories_app, Ha. simpl. rewrite app_nil_r. eauto.
  - eexists; split; [reflexivity|]. simpl.
    rewrite !advisories_app, Ha. simpl. rewrite app_nil_r. eauto.
Qed.

(** ** The bodies: one fetch each *)

Local Opaque football_data_get.

Ltac case_res :=
  match goal with
  | |- context [res_bind ?x _] =>
      let E := fresh "E" in destruct x eqn:E; simpl res_bind
  | |- context [match ?x with Ok _ => _ | Raise _ => _ end] =>
      let E := fresh "E" in destruct x eqn:E
  | |- context [if ?b then _ else _] =>
      let E := fresh "E" in destruct b eqn:E
  end.

(** Every body binds its arguments, builds its endpoint, calls
    [football_data_get] once and works on the document it got. *)
Lemma body_factors (op : operation) (c : call) (w : world) :
  body_of op c w =
    match endpoint_of op c with
    | Raise e => (Raise e, w)
    | Ok ep =>
        let '(data, w') := football_data_get ep w in
        (result_of_document op c data, w')
    end.
Proof.
  destruct op;
    unfold body_of, endpoint_of, result_of_document, matches_result,
      get_teams_in_league_body, get_team_by_id_body,
      get_last_matches_for_team_body, get_league_standings_body,
      M_bind, lift, fetch, ret, params_of;
    (destruct (bind_params _ c) as [ps|e]; simpl; [|reflexivity]);
    destruct ps as [|a1 [|a2 [|a3 [|a4 ps]]]]; try reflexivity;
    try (destruct (arg_double a3); simpl; [|reflexivity]);
    destruct (football_data_get _ w) as [data w']; simpl;
    repeat (case_res; try reflexivity).
Qed.

(** ** The recency-ordered cache *)

Lemma lru_find_app (k : call) (c1 c2 : lru) :
  lru_find k (c1 ++ c2) =
    match lru_find k c1 with Some v => Some v | None => lru_find k c2 end.
Proof.
  induction c1 as [|[k' v'] c1 IH]; simpl; [reflexivity|].
  destruct (bool_decide (k' = k)); auto.
Qed.

Lemma lru_find_remove_same (k : call) (c : lru) : lru_find k (lru_remove k c) = None.
Proof.
  induction c as [|[k' v'] c IH]; simpl; [reflexivity|].
  destruct (bool_decide (k' = k)) eqn:E; simpl; [assumption|].
  rewrite E. assumption.
Qed.

Lemma lru_find_remove_other (k k' : call) (c : lru) :
  k <> k' -> lru_find k' (lru_remove k c) = lru_find k' c.
Proof.
  intros Hne. induction c as [|[k0 v0] c IH]; simpl; [reflexivity|].
  destruct (bool_decide_reflect (k0 = k)) as [->|Hk]; simpl.
  - rewrite bool_decide_eq_false_2 by assumption. assumption.
  - rewrite IH. reflexivity.
Qed.

Lemma lru_remove_absent (k : call) (c : lru) :
  lru_find k c = None -> lru_remove k c = c.
Proof.
  induction c as [|[k' v'] c IH]; simpl; [reflexivity|].
  destruct (bool_decide (k' = k)); [discriminate|].
  intros H. rewrite IH by assumption. reflexivity.
Qed.

Lemma lru_remove_app (k : call) (c1 c2 : lru) :
  lru_remove k (c1 ++ c2) = lru_remove k c1 ++ lru_remove k c2.
Proof.
  induction c1 as [|[k' v'] c1 IH]; simpl; [reflexivity|].
  destruct (bool_decide (k' = k)); simpl; rewrite IH; reflexivity.
Qed.

Lemma lru_find_tail (k : call) (c : lru) :
  lru_find k c = None -> lru_find k (tail c) = None.
Proof.
  destruct c as [|[k' v'] c]; simpl; [reflexivity|].
  destruct (bool_decide (k' = k)); [discriminate | auto].
Qed.

Lemma lru_find_last (k : call) (v : value) (c : lru) :
  lru_find k c = None -> lru_find k (c ++ [(k, v)]) = Some v.
Proof.
  intros H. rewrite lru_find_app, H. simpl.
  rewrite bool_decide_eq_true_2 by reflexivity. reflexivity.
Qed.

(** Reading the most recent entry changes nothing. *)
Lemma lru_touch_last (k : call) (v : value) (c : lru) :
  lru_find k c = None -> lru_touch k (c ++ [(k, v)]) = c ++ [(k, v)].
Proof.
  intros H. unfold lru_touch. rewrite lru_find_last by assumption.
  rewrite lru_remove_app, lru_remove_absent by assumption. simpl.
  rewrite bool_decide_eq_true_2 by reflexivity. rewrite app_nil_r. reflexivity.
Qed.

(** After an access the key is the most recent entry. *)
Lemma lru_access_last (maxsize : nat) (c : lru) (k : call) (v : value) :
  exists c0 v', lru_access maxsize c (k, v) = c0 ++ [(k, v')] /\ lru_find k c0 = None
    /\ v' = default v (lru_find k c).
Proof.
  unfold lru_access, lru_touch, lru_insert. simpl.
  destruct (lru_find k c) as [v'|] eqn:E.
  - exists (lru_remove k c), v'. auto using lru_find_remove_same.
  - destruct (maxsize <=? length c)%nat.
    + exists (tail c), v. auto using lru_find_tail.
    + exists c, v. auto.
Qed.

(** ** The wrapper of [lru_cache] *)

Lemma run_unfold (op : operation) : run op = lru_cache (maxsize_of op) (body_of op).
Proof. destruct op; reflexivity. Qed.

Lemma maxsize_of_pos (op : operation) : exists n, maxsize_of op = S n.
Proof. destruct op; simpl; eauto. Qed.

(** A call that returns leaves the cache an access leaves, and either hit
    (nothing else moved) or ran the body once. *)
Lemma lru_cache_returns (n : nat) (f : call -> world -> res value * world)
    (k : call) (c c1 : lru) (w w1 : world) (v : value) :
  lru_cache (S n) f k c w = (Ok v, c1, w1) ->
  c1 = lru_access (S n) c (k, v)
  /\ ((lru_find k c = Some v /\ w1 = w) \/ (lru_find k c = None /\ f k w = (Ok v, w1))).
Proof.
  unfold lru_cache, lru_access. simpl fst; simpl snd.
  destruct (lru_find k c) as [v'|] eqn:E.
  - intros [= -> <- <-]. auto.
  - destruct (f k w) as [[v'|e] w'] eqn:Ef; intros [= <- <- <-]. auto.
Qed.

(** The second of two identical calls in a row: a hit, and nothing at
    all changes. *)
Lemma lru_cache_again (n : nat) (f : call -> world -> res value * world)
    (k : call) (c c1 : lru) (w w1 : world) (v : value) :
  lru_cache (S n) f k c w = (Ok v, c1, w1) ->
  forall w2, lru_cache (S n) f k c1 w2 = (Ok v, c1, w2).
Proof.
  intros H. destruct (lru_cache_returns _ _ _ _ _ _ _ _ H) as [-> Hcase].
  destruct (lru_access_last (S n) c k v) as (c0 & v' & E0 & Hc0 & Hv').
  assert (v' = v) as ->.
  { destruct Hcase as [[Hf _]|[Hf _]]; rewrite Hf in Hv'; exact Hv'. }
  rewrite E0. unfold lru_cache.
  rewrite lru_find_last, lru_touch_last by assumption. reflexivity.
Qed.

(** A miss on a call that gets as far as the fetch. *)
Lemma run_miss (op : operation) (k : call) (c : lru) (w : world) (ep : string) :
  lru_find k c = None ->
  endpoint_of op k = Ok ep ->
  run op k c w =
    let '(data, w') := football_data_get ep w in
    match result_of_document op k data with
    | Ok v => (Ok v, lru_insert (maxsize_of op) k v c, w')
    | Raise e => (Raise e, c, w')
    end.
Proof.
  intros Hmiss Hep. rewrite run_unfold.
  destruct (maxsize_of_pos op) as [n ->]. unfold lru_cache.
  rewrite Hmiss, body_factors, Hep.
  destruct (football_data_get ep w) as [data w'].
  destruct (result_of_document op k data); reflexivity.
Qed.

Lemma body_network_calls (op : operation) (k : call) (w w1 : world) (r : res value) :
  body_of op k w = (r, w1) ->
  exists new, network_calls (trace w1) = network_calls (trace w) ++ new
              /\ (length new <= 1)%nat.
Proof.
  rewrite body_factors. destruct (endpoint_of op k) as [ep|e].
  - pose proof (football_data_get_trace ep w) as H.
    destruct (football_data_get ep w) as [data w']. intros [= _ <-].
    destruct H as (H & _). eexists; split; [exact H|]. simpl. lia.
  - intros [= _ <-]. exists []. rewrite app_nil_r. simpl. split; [reflexivity | lia].
Qed.

Lemma empty_document (op : operation) (k : call) (ep : string) :
  endpoint_of op k = Ok ep -> result_of_document op k VNone = Ok (empty_of op).
Proof.
  destruct op; try reflexivity.
  unfold endpoint_of, result_of_document.
  destruct (bind_params (params_of Matches) k); [reflexivity | discriminate].
Qed.

(** C6.  Of two calls of a fetch operation with the same arguments, the
    second (after the first returned) is a cache hit: it returns the value
    of the first and leaves the world as it finds it (no request, no sleep,
    no new LAST_REQUEST_TIME, no message) and the cache as it is; so the
    two together send at most one request. *)
Theorem second_call_is_a_hit (op : operation) (k : call) (c c1 : lru)
    (w w1 : world) (v : value) :
  run op k c w = (Ok v, c1, w1) ->
  (forall w2, run op k c1 w2 = (Ok v, c1, w2))
  /\ exists new, network_calls (trace w1) = network_calls (trace w) ++ new
                 /\ (length new <= 1)%nat.
Proof.
  rewrite run_unfold. destruct (maxsize_of_pos op) as [n ->]. intros H. split.
  - eapply lru_cache_again. exact H.
  - destruct (lru_cache_returns _ _ _ _ _ _ _ _ H) as [_ [[_ ->]|[_ Hb]]].
    + exists []. rewrite app_nil_r. simpl. split; [reflexivity | lia].
    + eapply body_network_calls. exact Hb.
Qed.

(** C7.  When the answer to the request of a fetch operation fails (a
    429, 403, 404 or another 4xx/5xx status, an exception of the
    transport, a body that does not decode), the operation does not raise:
    it returns its empty result, a list or for the team an empty dict, and
    one message is flashed, none for the 404. *)
Theorem failures_become_empty (op : operation) (k : call) (c : lru) (w : world)
    (ep : string) :
  endpoint_of op k = Ok ep ->
  lru_find k c = None ->
  failed (next_answer w (BASE_URL +:+ ep)) = true ->
  exists c1 w1, run op k c w = (Ok (empty_of op), c1, w1)
    /\ if silent (next_answer w (BASE_URL +:+ ep))
       then advisories (trace w1) = advisories (trace w)
       else exists message category,
         advisories (trace w1) = advisories (trace w) ++ [EFlash message category].
Proof.
  intros Hep Hmiss Hfail.
  rewrite (run_miss op k c w ep Hmiss Hep).
  destruct (football_data_get_failed ep w Hfail) as (w1 & -> & Hadv).
  rewrite (empty_document op k ep Hep). eauto.
Qed.

(** ** Matches and standings documents *)

Lemma py_eq_str (v : value) (s : string) : py_eq v (VStr s) = true <-> v = VStr s.
Proof.
  destruct v; simpl; try (split; [discriminate | discriminate]).
  rewrite String.eqb_eq. split; [intros -> | intros [= ->]]; reflexivity.
Qed.

Lemma finished_status (m : value) : finished m = true <-> status_of m = VStr "FINISHED".
Proof. apply py_eq_str. Qed.

Lemma lacks_dict (d : list (string * value)) (key : string) :
  lacks (VDict d) key = Ok (negb (bool_decide (is_Some (dict_get d key)))).
Proof.
  unfold lacks. destruct d as [|kv d]; reflexivity.
Qed.

Lemma keep_finished_dicts (ms : list value) :
  Forall (fun m => is_dict m = true) ms ->
  keep_finished ms = Ok (List.filter finished ms).
Proof.
  induction 1 as [|m ms Hm _ IH]; simpl; [reflexivity|].
  unfold is_finished. rewrite (py_get_field _ _ _ Hm). simpl.
  rewrite IH. reflexivity.
Qed.

(** What the body makes of a document that holds [ms], for an [int]
    limit that is not negative. *)
Lemma matches_result_holds (limit : Z) (data : value) (ms : list value) :
  0 <= limit ->
  holds_matches data ms ->
  matches_result (AInt limit) data
  = Ok (VList (take (Z.to_nat limit) (List.filter finished ms))).
Proof.
  intros Hl (d & -> & [[Hnone ->]|[Hsome Hall]]); unfold matches_result.
  - rewrite lacks_dict, Hnone. simpl.
    rewrite take_nil. reflexivity.
  - rewrite lacks_dict, Hsome. simpl.
    rewrite Hsome. simpl. rewrite keep_finished_dicts by assumption. simpl.
    destruct (Z.leb_spec 0 limit); [reflexivity | lia].
Qed.

Lemma first_total_none (groups : list value) :
  Forall (fun e => other_group e = true) groups -> first_total groups = Ok None.
Proof.
  induction 1 as [|e groups He _ IH]; simpl; [reflexivity|].
  destruct e as [| | | | |d]; simpl in He; try discriminate.
  simpl. destruct (dict_get d "type") as [ty|]; [|discriminate]. simpl.
  destruct (py_eq ty (VStr "TOTAL")); [discriminate | exact IH].
Qed.

Lemma first_total_found (before after : list value) (e table : value) :
  Forall (fun e => other_group e = true) before ->
  total_group e table ->
  first_total (before ++ e :: after) = Ok (Some table).
Proof.
  intros Hb (d & -> & Hty & Htab).
  induction Hb as [|e groups He _ IH]; simpl.
  - rewrite Hty. simpl. rewrite Htab. reflexivity.
  - destruct e as [| | | | |d']; simpl in He; try discriminate.
    simpl. destruct (dict_get d' "type") as [ty|]; [|discriminate]. simpl.
    destruct (py_eq ty (VStr "TOTAL")); [discriminate | exact IH].
Qed.

(** C3.  On a miss [get_last_matches_for_team] asks the upstream for twice
    the limit, keeps the matches whose status equals FINISHED, in their
    order, and cuts the list at the limit asked for: the list returned has
    at most [limit] entries, all FINISHED, exactly min(limit, n) of them
    when the document holds n FINISHED matches, and it is empty when the
    document has no [matches] key. *)
Theorem finished_matches_up_to_limit (k : call) (c : lru) (w : world)
    (team_id season : arg) (limit : Z) (data : value) (ms : list value) :
  bind_params (params_of Matches) k = Ok [team_id; season; AInt limit] ->
  0 <= limit ->
  lru_find k c = None ->
  document (next_answer w (matches_url team_id season limit)) = Some data ->
  holds_matches data ms ->
  exists out c1 w1,
    get_last_matches_for_team k c w = (Ok (VList out), c1, w1)
    /\ network_calls (trace w1)
       = network_calls (trace w) ++ [ERequest (matches_url team_id season limit)]
    /\ out = take (Z.to_nat limit) (List.filter finished ms)
    /\ Z.of_nat (length out) <= limit
    /\ Forall (fun m => status_of m = VStr "FINISHED") out
    /\ length out = Nat.min (Z.to_nat limit) (length (List.filter finished ms))
    /\ (forall d, data = VDict d -> dict_get d "matches" = None -> out = []).
Proof.
  intros Hbind Hlimit Hmiss Hdoc Hholds.
  set (ep := "teams/" +:+ fmt team_id +:+ "/matches?season="
             +:+ fmt (default_season season) +:+ "&limit=" +:+ pretty (limit * 2)).
  assert (endpoint_of Matches k = Ok ep) as Hep
    by (unfold endpoint_of; rewrite Hbind; reflexivity).
  change (matches_url team_id season limit) with (BASE_URL +:+ ep) in *.
  change get_last_matches_for_team with (run Matches).
  rewrite (run_miss Matches k c w ep Hmiss Hep).
  pose proof (football_data_get_trace ep w) as Htrace.
  destruct (football_data_get_document ep w data Hdoc) as (w1 & Hget & _).
  rewrite Hget in *. destruct Htrace as (Htrace & _).
  unfold result_of_document. rewrite Hbind. simpl res_bind. simpl nth.
  rewrite (matches_result_holds limit data ms Hlimit Hholds).
  do 3 eexists. split; [reflexivity|]. split; [exact Htrace|].
  split; [reflexivity|]. split; [|split; [|split]].
  - rewrite length_take. lia.
  - apply Forall_take, Forall_forall. intros m Hm.
    apply list_elem_of_In, List.filter_In in Hm. apply finished_status, Hm.
  - apply length_take.
  - intros d -> Hnone. destruct Hholds as (d' & [= <-] & [[_ ->]|[Hsome _]]).
    + apply take_nil.
    + congruence.
Qed.

(** C8.  On a miss [get_league_standings] returns the [table] of the
    first group of [standings] whose type equals TOTAL, passing over the
    groups of another type before it (HOME, AWAY and the like); it returns
    the empty list when no group is of type TOTAL and when the document
    has no [standings] key. *)
Theorem total_standings_table (k : call) (c : lru) (w : world)
    (league_code season : arg) (d : list (string * value)) :
  bind_params (params_of Standings) k = Ok [league_code; season] ->
  lru_find k c = None ->
  document (next_answer w (standings_url league_code season)) = Some (VDict d) ->
  (forall before e after table,
     dict_get d "standings" = Some (VList (before ++ e :: after)) ->
     Forall (fun g => other_group g = true) before ->
     total_group e table ->
     exists c1 w1, get_league_standings k c w = (Ok table, c1, w1))
  /\ (forall groups,
     dict_get d "standings" = Some (VList groups) ->
     Forall (fun g => other_group g = true) groups ->
     exists c1 w1, get_league_standings k c w = (Ok (VList []), c1, w1))
  /\ (dict_get d "standings" = None ->
     exists c1 w1, get_league_standings k c w = (Ok (VList []), c1, w1)).
Proof.
  intros Hbind Hmiss Hdoc.
  set (ep := "competitions/" +:+ fmt league_code +:+ "/standings?season="
             +:+ fmt (default_season season)).
  assert (endpoint_of Standings k = Ok ep) as Hep
    by (unfold endpoint_of; rewrite Hbind; reflexivity).
  change (standings_url league_code season) with (BASE_URL +:+ ep) in *.
  change get_league_standings with (run Standings).
  rewrite (run_miss Standings k c w ep Hmiss Hep).
  destruct (football_data_get_document ep w _ Hdoc) as (w1 & -> & _).
  unfold result_of_document. rewrite lacks_dict.
  split; [|split].
  - intros before e after table Hsome Hbefore Htotal.
    rewrite Hsome. simpl. rewrite Hsome. simpl.
    rewrite (first_total_found before after e table Hbefore Htotal). simpl. eauto.
  - intros groups Hsome Hall.
    rewrite Hsome. simpl. rewrite Hsome. simpl.
    rewrite (first_total_none groups Hall). simpl. eauto.
  - intros Hnone. rewrite Hnone. simpl. eauto.
Qed.

(** ** Eviction *)

Lemma lru_find_None (k : call) (c : lru) : lru_find k c = None <-> k ∉ c.*1.
Proof.
  induction c as [|[k' v'] c IH]; simpl.
  - split; [intros _; apply not_elem_of_nil | reflexivity].
  - rewrite not_elem_of_cons.
    destruct (bool_decide_reflect (k' = k)) as [->|Hne].
    + split; [discriminate | intros [[] _]; reflexivity].
    + rewrite IH. split; [intros H; split; [congruence | exact H] | tauto].
Qed.

Lemma lru_find_is_Some (k : call) (c : lru) : is_Some (lru_find k c) <-> k ∈ c.*1.
Proof.
  destruct (lru_find k c) eqn:E.
  - split; [intros _ | eauto].
    destruct (decide (k ∈ c.*1)) as [|Hn]; [assumption|].
    apply lru_find_None in Hn. congruence.
  - apply lru_find_None in E. split; [intros [? [=]] | tauto].
Qed.

Lemma lru_keys_remove (k : call) (c : lru) :
  (lru_remove k c).*1 = filter (fun k' => k' <> k) c.*1.
Proof.
  induction c as [|[k' v'] c IH]; [reflexivity|].
  simpl lru_remove. rewrite fmap_cons, filter_cons. simpl fst.
  destruct (bool_decide_reflect (k' = k)) as [->|Hne].
  - rewrite decide_False by tauto. exact IH.
  - rewrite decide_True by assumption. rewrite fmap_cons, IH. reflexivity.
Qed.

Lemma lru_remove_length (k : call) (c : lru) :
  k ∈ c.*1 -> (length (lru_remove k c) < length c)%nat.
Proof.
  induction c as [|[k' v'] c IH]; simpl.
  - intros H. apply elem_of_nil in H. contradiction.
  - intros H. destruct (bool_decide_reflect (k' = k)) as [->|Hne].
    + clear. induction c as [|[k1 v1] c IH]; simpl; [lia|].
      destruct (bool_decide (k1 = k)); simpl; lia.
    + apply elem_of_cons in H as [->|H]; [contradiction|].
      simpl. specialize (IH H). lia.
Qed.

(** The cache never holds more than [maxsize] entries. *)
Lemma lru_access_bounded (maxsize : nat) (c : lru) (kv : call * value) :
  (0 < maxsize)%nat -> (length c <= maxsize)%nat ->
  (length (lru_access maxsize c kv) <= maxsize)%nat.
Proof.
  intros Hpos Hlen. unfold lru_access, lru_touch, lru_insert.
  destruct (lru_find kv.1 c) eqn:E.
  - assert (kv.1 ∈ c.*1) as Hin by (apply lru_find_is_Some; rewrite E; eauto).
    pose proof (lru_remove_length _ _ Hin). rewrite length_app. simpl. lia.
  - destruct (Nat.leb_spec maxsize (length c)); rewrite length_app; simpl.
    + destruct c; simpl in *; lia.
    + lia.
Qed.

Lemma lru_run_bounded (maxsize : nat) (accesses : list (call * value)) :
  (0 < maxsize)%nat -> (length (lru_run maxsize accesses) <= maxsize)%nat.
Proof.
  intros Hpos. unfold lru_run.
  assert (length (@nil (call * value)) <= maxsize)%nat as H by (simpl; lia).
  revert H. generalize (@nil (call * value)).
  induction accesses as [|kv accesses IH]; intros c Hc; simpl; [assumption|].
  apply IH, lru_access_bounded; assumption.
Qed.

Section Eviction.

Variable maxsize : nat.
Variable k0 : call.
Variable ks : list call.
Hypothesis maxsize_pos : (0 < maxsize)%nat.
Hypothesis ks_distinct : NoDup ks.
Hypothesis ks_fill : length ks = maxsize.
Hypothesis k0_fresh : k0 ∉ ks.

Local Abbreviation oldest := (first_is_oldest maxsize k0 ks).
Local Abbreviation out := (first_is_out k0 ks).

Lemma eviction_step (seen : list call) (c : lru) (k : call) (v : value) :
  k ∈ ks ->
  oldest seen c \/ out c ->
  oldest (k :: seen) (lru_access maxsize c (k, v))
  \/ out (lru_access maxsize c (k, v)).
Proof.
  intros Hk [(v0 & c' & -> & Hnd & Hsub & Hseen & Hlen)|[Hout Hall]].
  - assert (k0 <> k) as Hne by (intros ->; contradiction).
    unfold lru_access, lru_touch, lru_insert. simpl.
    rewrite bool_decide_eq_false_2 by assumption.
    destruct (lru_find k c') as [v'|] eqn:E.
    + left. exists v0, (lru_remove k c' ++ [(k, v')]).
      assert (k ∈ c'.*1) as Hin by (apply lru_find_is_Some; rewrite E; eauto).
      split; [reflexivity|]. rewrite fmap_app, lru_keys_remove. simpl.
      split; [|split; [|split]].
      * apply NoDup_app. split; [by apply NoDup_filter|].
        split; [|apply NoDup_singleton].
        intros x Hx ->%list_elem_of_singleton.
        apply list_elem_of_filter in Hx. tauto.
      * intros x [Hx|Hx%list_elem_of_singleton]%elem_of_app;
          [apply list_elem_of_filter in Hx; apply Hsub; tauto | by subst].
      * intros x Hx. apply elem_of_app.
        destruct (decide (x = k)) as [->|Hxk];
          [right; apply list_elem_of_singleton; reflexivity|].
        left. apply list_elem_of_filter. split; [assumption|].
        apply elem_of_cons in Hx as [->|Hx]; [contradiction | by apply Hseen].
      * pose proof (lru_remove_length _ _ Hin). rewrite length_app. simpl. lia.
    + apply lru_find_None in E.
      assert (NoDup (c'.*1 ++ [k])) as Hnd'.
      { apply NoDup_app. split; [assumption|]. split; [|apply NoDup_singleton].
        intros x Hx ->%list_elem_of_singleton. contradiction. }
      assert ((c'.*1 ++ [k]) ⊆ ks) as Hsub'.
      { intros x [Hx|Hx%list_elem_of_singleton]%elem_of_app; [by apply Hsub | by subst]. }
      destruct (Nat.leb_spec maxsize (S (length c'))).
      * right. unfold first_is_out. rewrite fmap_app. simpl. split.
        -- intros Hin. apply k0_fresh, Hsub'. exact Hin.
        -- assert (c'.*1 ++ [k] ≡ₚ ks) as Hperm.
           { apply submseteq_length_Permutation; [by apply NoDup_submseteq|].
             rewrite length_app, length_fmap. simpl. lia. }
           intros x Hx. rewrite Hperm. exact Hx.
      * left. exists v0, (c' ++ [(k, v)]). split; [reflexivity|].
        rewrite fmap_app. simpl. split; [assumption|]. split; [assumption|].
        split; [|rewrite length_app; simpl; lia].
        intros x Hx. apply elem_of_app.
        apply elem_of_cons in Hx as [->|Hx];
          [right; apply list_elem_of_singleton; reflexivity | left; by apply Hseen].
  - right. assert (k0 <> k) as Hne by (intros ->; contradiction).
    assert (k ∈ c.*1) as Hin by (by apply Hall).
    unfold lru_access, lru_touch. simpl.
    destruct (lru_find k c) as [v'|] eqn:E;
      [|apply lru_find_None in E; contradiction].
    unfold first_is_out. rewrite fmap_app, lru_keys_remove. simpl. split.
    + intros [Hx|Hx%list_elem_of_singleton]%elem_of_app;
        [apply list_elem_of_filter in Hx; tauto | congruence].
    + intros x Hx. apply elem_of_app.
      destruct (decide (x = k)) as [->|Hxk];
        [right; apply list_elem_of_singleton; reflexivity|].
      left. apply list_elem_of_filter. split; [assumption | by apply Hall].
Qed.

Lemma eviction_run (rest : list (call * value)) :
  forall (seen : list call) (c : lru),
    rest.*1 ⊆ ks ->
    oldest seen c \/ out c ->
    oldest (reverse rest.*1 ++ seen) (fold_left (lru_access maxsize) rest c)
    \/ out (fold_left (lru_access maxsize) rest c).
Proof.
  induction rest as [|[k v] rest IH]; intros seen c Hsub Hinv; [exact Hinv|].
  rewrite fmap_cons, reverse_cons, <- app_assoc. simpl. apply IH.
  - intros x Hx. apply Hsub. rewrite fmap_cons. by apply elem_of_cons; right.
  - apply eviction_step; [|assumption]. apply Hsub. rewrite fmap_cons.
    apply elem_of_cons; left; reflexivity.
Qed.

(** After the first key, accesses to the [maxsize] keys of [ks] only, in
    any order and with any repetition, all of them reached: the first key
    is gone and every key of [ks] is there. *)
Lemma first_key_evicted (v0 : value) (rest : list (call * value)) :
  rest.*1 ⊆ ks -> ks ⊆ rest.*1 ->
  let cache := lru_run maxsize ((k0, v0) :: rest) in
  lru_find k0 cache = None /\ forall k, k ∈ ks -> is_Some (lru_find k cache).
Proof.
  intros Hsub Hsup. unfold lru_run. simpl.
  assert (lru_access maxsize [] (k0, v0) = [(k0, v0)]) as ->.
  { unfold lru_access, lru_insert. simpl.
    destruct (Nat.leb_spec maxsize 0); [lia | reflexivity]. }
  destruct (eviction_run rest [] [(k0, v0)] Hsub) as
    [(v0' & c' & _ & Hnd & _ & Hseen & Hlen)|[Hout Hall]].
  - left. exists v0, []. split; [reflexivity|]. simpl.
    split; [constructor|]. split; [intros x Hx; by apply elem_of_nil in Hx|].
    split; [intros x Hx; by apply elem_of_nil in Hx | lia].
  - exfalso. rewrite app_nil_r in Hseen.
    assert (ks ⊆+ c'.*1) as Hle.
    { apply NoDup_submseteq; [assumption|].
      intros x Hx. apply Hseen, elem_of_reverse, Hsup, Hx. }
    apply submseteq_length in Hle. rewrite length_fmap in Hle. lia.
  - split; [by apply lru_find_None|].
    intros k Hk. apply lru_find_is_Some, Hall, Hk.
Qed.

End Eviction.

(** A call that returns leaves the cache the access of its key leaves. *)
Lemma run_is_access (op : operation) (k : call) (c c1 : lru) (w w1 : world) (v : value) :
  run op k c w = (Ok v, c1, w1) -> c1 = lru_access (maxsize_of op) c (k, v).
Proof.
  rewrite run_unfold. destruct (maxsize_of_pos op) as [n ->].
  intros H. apply (lru_cache_returns _ _ _ _ _ _ _ _ H).
Qed.

(** C5, as the claim has it, fails: a read refreshes an entry.  With the
    capacity of 128 of [get_teams_in_league], 128 distinct calls, the first
    call again (a hit, no request), and a 129th distinct call: the first
    key is still there and it is the second that was evicted. *)
Lemma insertion_order_counterexample :
  let calls := map numbered (seq 0 128) ++ [numbered 0] ++ [numbered 128] in
  let '(cache, w) :=
    run_calls Teams calls [] (steady_world 200 (VDict [("teams", VList [VInt 57])])) in
  length (network_calls (trace w)) = 129%nat
  /\ lru_find (numbered 0) cache = Some (VList [VInt 57])
  /\ lru_find (numbered 1) cache = None
  /\ length cache = 128%nat.
Proof. vm_compute. repeat split. Qed.

(** ** Cache keys *)

(** A call never creates or refreshes the entry of another call. *)
Lemma run_keeps_absent (op : operation) (k1 k2 : call) (c c' : lru)
    (w w' : world) (r : res value) :
  k1 <> k2 ->
  lru_find k1 c = None ->
  run op k2 c w = (r, c', w') ->
  lru_find k1 c' = None.
Proof.
  intros Hne Habs. rewrite run_unfold. destruct (maxsize_of_pos op) as [n ->].
  unfold lru_cache, lru_touch, lru_insert.
  assert (forall v, lru_find k1 [(k2, v)] = None) as Hlast
    by (intros v; simpl; rewrite bool_decide_eq_false_2 by congruence; reflexivity).
  destruct (lru_find k2 c) as [v|] eqn:E.
  - intros [= _ <- _].
    rewrite lru_find_app, lru_find_remove_other, Habs by congruence. apply Hlast.
  - destruct (body_of op k2 w) as [[v|e] w2]; intros [= _ <- _]; [|assumption].
    match goal with |- context [if ?b then _ else _] => destruct b end;
      rewrite lru_find_app.
    + rewrite lru_find_tail by assumption. apply Hlast.
    + rewrite Habs. apply Hlast.
Qed.

(** C4, as the code has it.  The key of a cache entry is the call as
    written, taken before the body runs, and the missing season becomes
    "2023" inside the body: a call without the season and the call with
    "2023" ask for the same endpoint, but neither fills the entry of the
    other; and two calls whose parameters differ (league or team id,
    season, limit) never share an entry. *)
Theorem cache_key_is_the_call (op : operation) (k1 k2 : call) (c c' : lru)
    (w w' : world) (r : res value) :
  lru_find k1 c = None ->
  run op k2 c w = (r, c', w') ->
  (bind_params (params_of op) k1 <> bind_params (params_of op) k2 ->
   lru_find k1 c' = None)
  /\ (forall a,
        op <> TeamInfo ->
        (k1 = positional [a; AStr "2023"] /\ k2 = positional [a])
        \/ (k1 = positional [a] /\ k2 = positional [a; AStr "2023"]) ->
        endpoint_of op k1 = endpoint_of op k2 /\ lru_find k1 c' = None).
Proof.
  intros Habs Hrun. split.
  - intros Hne. eapply run_keeps_absent; [|exact Habs|exact Hrun]. congruence.
  - intros a Hop Hcase. split.
    + destruct Hcase as [[-> ->]|[-> ->]]; destruct op; try reflexivity; contradiction.
    + eapply run_keeps_absent; [|exact Habs|exact Hrun].
      destruct Hcase as [[-> ->]|[-> ->]]; discriminate.
Qed.

(** C4, as the claim has it, fails: the call of [get_teams_in_league]
    without the season does not serve the call with "2023", positional or
    by keyword; the second call is a miss and sends a second request to the
    same URL. *)
Lemma default_season_counterexample :
  let w0 := steady_world 200 (VDict [("teams", VList [VInt 57])]) in
  let omitted := positional [AStr "PL"] in
  let explicit := positional [AStr "PL"; AStr "2023"] in
  let keyword := {| args := [AStr "PL"]; kwargs := [("season", AStr "2023")] |} in
  let '(r1, c1, w1) := get_teams_in_league omitted [] w0 in
  let '(r2, c2, w2) := get_teams_in_league explicit c1 w1 in
  lru_find explicit c1 = None
  /\ lru_find keyword c1 = None
  /\ r1 = r2
  /\ network_calls (trace w2)
     = [ERequest "https://api.football-data.org/v4/competitions/PL/teams?season=2023";
        ERequest "https://api.football-data.org/v4/competitions/PL/teams?season=2023"]
  /\ length c2 = 2%nat.
Proof. vm_compute. repeat split. Qed.

(** ** The theorems at sample calls *)

Lemma finished_matches_up_to_limit_witness :
  let k := positional [AStr "57"; AStr "2023"; AInt 5] in
  let data := VDict [("matches", VList ten_matches)] in
  let w := steady_world 200 data in
  bind_params (params_of Matches) k = Ok [AStr "57"; AStr "2023"; AInt 5]
  /\ 0 <= 5
  /\ lru_find k [] = None
  /\ document (next_answer w (matches_url (AStr "57") (AStr "2023") 5)) = Some data
  /\ holds_matches data ten_matches
  /\ exists out c1 w1,
       get_last_matches_for_team k [] w = (Ok (VList out), c1, w1)
       /\ network_calls (trace w1)
          = network_calls (trace w)
            ++ [ERequest (matches_url (AStr "57") (AStr "2023") 5)]
       /\ out = take (Z.to_nat 5) (List.filter finished ten_matches)
       /\ Z.of_nat (length out) <= 5
       /\ Forall (fun m => status_of m = VStr "FINISHED") out
       /\ length out = Nat.min (Z.to_nat 5) (length (List.filter finished ten_matches))
       /\ (forall d, data = VDict d -> dict_get d "matches" = None -> out = []).
Proof.
  intros k data w.
  assert (holds_matches data ten_matches) as Hholds.
  { eexists. split; [reflexivity|]. right. split; [reflexivity|].
    repeat constructor. }
  split; [reflexivity|]. split; [lia|]. split; [reflexivity|].
  split; [reflexivity|]. split; [exact Hholds|].
  apply (finished_matches_up_to_limit k [] w (AStr "57") (AStr "2023") 5 data ten_matches);
    (reflexivity || lia || exact Hholds).
Defined.

Lemma total_standings_table_witness :
  let k := positional [AStr "PL"; AStr "2023"] in
  let w := steady_world 200 (VDict two_groups) in
  bind_params (params_of Standings) k = Ok [AStr "PL"; AStr "2023"]
  /\ lru_find k [] = None
  /\ document (next_answer w (standings_url (AStr "PL") (AStr "2023")))
     = Some (VDict two_groups)
  /\ exists c1 w1,
       get_league_standings k [] w = (Ok (VList [VStr "total rows"]), c1, w1).
Proof.
  intros k w.
  split; [reflexivity|]. split; [reflexivity|]. split; [reflexivity|].
  refine (proj1 (total_standings_table k [] w (AStr "PL") (AStr "2023") two_groups
                   eq_refl eq_refl eq_refl)
            [VDict [("type", VStr "HOME"); ("table", VList [VStr "home rows"])]]
            (VDict [("type", VStr "TOTAL"); ("table", VList [VStr "total rows"])])
            [] (VList [VStr "total rows"]) eq_refl _ _).
  - repeat constructor.
  - eexists. repeat split.
Defined.

Lemma second_call_is_a_hit_witness :
  let k := positional [AStr "PL"; AStr "2023"] in
  let w := steady_world 200 (VDict [("teams", VList [VInt 57])]) in
  exists v c1 w1,
    run Teams k [] w = (Ok v, c1, w1)
    /\ (forall w2, run Teams k c1 w2 = (Ok v, c1, w2))
    /\ exists new, network_calls (trace w1) = network_calls (trace w) ++ new
                   /\ (length new <= 1)%nat.
Proof.
  intros k w.
  destruct (run Teams k [] w) as [[[v|e] c1] w1] eqn:E; [|vm_compute in E; discriminate].
  exists v, c1, w1. split; [reflexivity|].
  exact (second_call_is_a_hit Teams k [] c1 w w1 v E).
Defined.

Lemma failures_become_empty_witness :
  let k := positional [AStr "PL"] in
  let w := steady_world 429 VNone in
  let ep := "competitions/PL/teams?season=2023" in
  endpoint_of Teams k = Ok ep
  /\ lru_find k [] = None
  /\ failed (next_answer w (BASE_URL +:+ ep)) = true
  /\ exists c1 w1, run Teams k [] w = (Ok (empty_of Teams), c1, w1)
       /\ if silent (next_answer w (BASE_URL +:+ ep))
          then advisories (trace w1) = advisories (trace w)
          else exists message category,
            advisories (trace w1) = advisories (trace w) ++ [EFlash message category].
Proof.
  intros k w ep.
  split; [reflexivity|]. split; [reflexivity|]. split; [reflexivity|].
  apply (failures_become_empty Teams k [] w ep); reflexivity.
Defined.

Lemma cache_key_is_the_call_witness :
  let k1 := positional [AStr "PL"; AStr "2023"] in
  let k2 := positional [AStr "PL"] in
  let w := steady_world 200 (VDict [("teams", VList [VInt 57])]) in
  lru_find k1 [] = None
  /\ exists r c' w',
       run Teams k2 [] w = (r, c', w')
       /\ (bind_params (params_of Teams) k1 <> bind_params (params_of Teams) k2 ->
           lru_find k1 c' = None)
       /\ (forall a,
             Teams <> TeamInfo ->
             (k1 = positional [a; AStr "2023"] /\ k2 = positional [a])
             \/ (k1 = positional [a] /\ k2 = positional [a; AStr "2023"]) ->
             endpoint_of Teams k1 = endpoint_of Teams k2 /\ lru_find k1 c' = None).
Proof.
  intros k1 k2 w. split; [reflexivity|].
  destruct (run Teams k2 [] w) as [[r c'] w'] eqn:E.
  exists r, c', w'. split; [reflexivity|].
  exact (cache_key_is_the_call Teams k1 k2 [] c' w w' r eq_refl E).
Defined.

(** The 429 is reported as a warning, and the empty list is what the
    cache keeps for the call. *)
Example rate_limit_is_flashed_and_cached :
  let '(r, c, w) := run Teams (positional [AStr "PL"]) [] (steady_world 429 VNone) in
  r = Ok (VList [])
  /\ advisories (trace w)
     = [EFlash "Límite de requests excedido. Espera un minuto." "warning"]
  /\ lru_find (positional [AStr "PL"]) c = Some (VList []).
Proof. vm_compute. repeat split. Qed.

(** * Further properties of the fetch layer *)

(** ** The limiter *)

Local Transparent football_data_get.

(** Whatever the answer, [football_data_get] stamps its request at least
    [REQUEST_DELAY] after the stamp it finds. *)
Lemma football_data_get_stamp (endpoint : string) (w : world) :
  LAST_REQUEST_TIME w + REQUEST_DELAY
  <= LAST_REQUEST_TIME (snd (football_data_get endpoint w)).
Proof.
  unfold football_data_get, requests_get.
  pose proof (rate_limited_request_gap w) as [Hgap _]. cbv zeta in Hgap.
  set (w1 := rate_limited_request w) in *. clearbody w1.
  destruct (upstream w1 (served w1) _) as [r|e];
    [destruct (status_code r =? 429), (status_code r =? 403), (status_code r =? 404),
       ((400 <=? status_code r) && (status_code r <? 600)), (json r)|];
    simpl; exact Hgap.
Qed.

Local Opaque football_data_get.

(** ** The three ways a call goes *)

(** A call is a hit, or it fails before the fetch, or it fetches once and
    works on the document. *)
Lemma run_cases (op : operation) (k : call) (c c' : lru) (w w' : world)
    (r : res value) :
  run op k c w = (r, c', w') ->
  (exists v, lru_find k c = Some v /\ r = Ok v /\ c' = lru_touch k c /\ w' = w)
  \/ (exists e, lru_find k c = None /\ endpoint_of op k = Raise e
                /\ r = Raise e /\ c' = c /\ w' = w)
  \/ (exists ep, lru_find k c = None /\ endpoint_of op k = Ok ep
                 /\ w' = snd (football_data_get ep w)
                 /\ r = result_of_document op k (fst (football_data_get ep w))
                 /\ c' = match r with
                         | Ok v => lru_insert (maxsize_of op) k v c
                         | Raise _ => c
                         end).
Proof.
  rewrite run_unfold. destruct (maxsize_of_pos op) as [n Hn]. rewrite Hn.
  unfold lru_cache. destruct (lru_find k c) as [v|] eqn:Hfind.
  - intros [= <- <- <-]. left. eauto.
  - rewrite body_factors. destruct (endpoint_of op k) as [ep|e].
    + destruct (football_data_get ep w) as [data w1] eqn:Hget. simpl.
      destruct (result_of_document op k data) as [v|e] eqn:Hres;
        intros [= <- <- <-]; right; right; exists ep;
        rewrite ?Hn, Hget; simpl; auto 10.
    + intros [= <- <- <-]. right. left. eauto 10.
Qed.

Lemma bind_go_raises (params : list (string * option arg)) (kw : list (string * arg)) :
  forall (pos : list arg) (e : exn), bind_go params pos kw = Raise e -> e = TypeError.
Proof.
  induction params as [|[name dflt] params IH]; intros pos e; simpl.
  - destruct pos; [discriminate | congruence].
  - destruct pos as [|a pos].
    + destruct (kw_get kw name), dflt; try congruence;
        (destruct (bind_go params [] kw) eqn:E; simpl; [discriminate|];
         intros [= <-]; eapply IH; exact E).
    + destruct (kw_get kw name); [congruence|].
      destruct (bind_go params pos kw) eqn:E; simpl; [discriminate|].
      intros [= <-]. eapply IH. exact E.
Qed.

Lemma bind_params_raises (params : list (string * option arg)) (k : call) (e : exn) :
  bind_params params k = Raise e -> e = TypeError.
Proof.
  unfold bind_params. destruct (kw_well_formed _ _ _); [|congruence].
  apply bind_go_raises.
Qed.

Lemma endpoint_of_raises (op : operation) (k : call) (e : exn) :
  endpoint_of op k = Raise e -> e = TypeError.
Proof.
  unfold endpoint_of.
  destruct (bind_params (params_of op) k) as [ps|e'] eqn:E; simpl.
  - destruct op, ps as [|a1 [|a2 [|a3 [|a4 ps]]]]; try congruence.
    destruct (arg_double a3) as [|e'] eqn:E'; simpl; [discriminate|].
    destruct a3; simpl in E'; congruence.
  - intros [= <-]. eapply bind_params_raises. exact E.
Qed.

(** X1.  A call of a fetch operation either leaves the world as it is (a
    hit, or arguments that do not bind), or sends one request, stamped at
    least [REQUEST_DELAY] seconds after the stamp of the request before. *)
Theorem requests_are_spaced (op : operation) (k : call) (c c' : lru)
    (w w' : world) (r : res value) :
  run op k c w = (r, c', w') ->
  w' = w
  \/ (LAST_REQUEST_TIME w + REQUEST_DELAY <= LAST_REQUEST_TIME w'
      /\ exists ep, endpoint_of op k = Ok ep
           /\ network_calls (trace w')
              = network_calls (trace w) ++ [ERequest (BASE_URL +:+ ep)]).
Proof.
  intros H. destruct (run_cases _ _ _ _ _ _ _ H)
    as [(v & _ & _ & _ & ->)|[(e & _ & _ & _ & _ & ->)|(ep & _ & Hep & -> & _)]];
    auto.
  right. split; [apply football_data_get_stamp|].
  exists ep. split; [assumption|].
  pose proof (football_data_get_trace ep w) as Ht.
  destruct (football_data_get ep w) as [data w1]. apply Ht.
Qed.

Lemma requests_are_spaced_witness :
  let k := positional [AStr "PL"; AStr "2023"] in
  let w := steady_world 200 (VDict [("teams", VList [VInt 57])]) in
  exists r c' w',
    run Teams k [] w = (r, c', w')
    /\ (w' = w
        \/ (LAST_REQUEST_TIME w + REQUEST_DELAY <= LAST_REQUEST_TIME w'
            /\ exists ep, endpoint_of Teams k = Ok ep
                 /\ network_calls (trace w')
                    = network_calls (trace w) ++ [ERequest (BASE_URL +:+ ep)])).
Proof.
  intros k w. destruct (run Teams k [] w) as [[r c'] w'] eqn:E.
  exists r, c', w'. split; [reflexivity|].
  exact (requests_are_spaced Teams k [] c' w w' r E).
Defined.

(** X2.  A call whose arguments do not bind to the parameters (or whose
    limit is None) raises TypeError before anything happens: no request,
    no sleep, and the cache is left as it is. *)
Theorem unbound_call_changes_nothing (op : operation) (k : call) (c : lru)
    (w : world) (e : exn) :
  endpoint_of op k = Raise e ->
  lru_find k c = None ->
  run op k c w = (Raise TypeError, c, w).
Proof.
  intros Hep Hmiss. rewrite (endpoint_of_raises op k e Hep) in Hep.
  destruct (run op k c w) as [[r c'] w'] eqn:H.
  destruct (run_cases _ _ _ _ _ _ _ H)
    as [(v & Hf & _)|[(e' & _ & He' & -> & -> & ->)|(ep & _ & Hep' & _)]];
    congruence.
Qed.

Lemma unbound_call_changes_nothing_witness :
  let k := {| args := [AStr "57"]; kwargs := [("limit", ANone)] |} in
  let w := steady_world 200 VNone in
  endpoint_of Matches k = Raise TypeError
  /\ lru_find k [] = None
  /\ run Matches k [] w = (Raise TypeError, [], w).
Proof.
  intros k w. split; [reflexivity|]. split; [reflexivity|].
  apply (unbound_call_changes_nothing Matches k [] w TypeError); reflexivity.
Defined.

(** X3.  A call that raises stores nothing: the cache is exactly the one
    it found, so the same call will run the body again. *)
Theorem exceptions_are_not_cached (op : operation) (k : call) (c c' : lru)
    (w w' : world) (e : exn) :
  run op k c w = (Raise e, c', w') ->
  c' = c /\ lru_find k c' = None.
Proof.
  intros H. destruct (run_cases _ _ _ _ _ _ _ H)
    as [(v & _ & [=] & _)|[(e' & Hf & _ & _ & -> & _)|(ep & Hf & _ & _ & _ & ->)]];
    auto.
Qed.

Lemma exceptions_are_not_cached_witness :
  let k := positional [AStr "PL"; AStr "2023"] in
  let w := steady_world 200 (VDict [("standings", VList [VDict [("stage", VStr "REGULAR_SEASON")]])]) in
  exists c' w',
    run Standings k [] w = (Raise KeyError, c', w')
    /\ c' = [] /\ lru_find k c' = None.
Proof.
  intros k w.
  destruct (run Standings k [] w) as [[r c'] w'] eqn:E.
  assert (r = Raise KeyError) as -> by (vm_compute in E; congruence).
  exists c', w'. split; [reflexivity|].
  exact (exceptions_are_not_cached Standings k [] c' w w' KeyError E).
Defined.

(** X4.  The empty result of a failed fetch is cached like any other: once
    the answer to a call has failed, the same call returns the empty
    result in every later world, without a request, whatever the upstream
    would answer by then. *)
Theorem failure_is_cached (op : operation) (k : call) (c : lru) (w : world)
    (ep : string) :
  endpoint_of op k = Ok ep ->
  lru_find k c = None ->
  failed (next_answer w (BASE_URL +:+ ep)) = true ->
  exists c1 w1,
    run op k c w = (Ok (empty_of op), c1, w1)
    /\ lru_find k c1 = Some (empty_of op)
    /\ forall w2, run op k c1 w2 = (Ok (empty_of op), c1, w2).
Proof.
  intros Hep Hmiss Hfail.
  pose proof (run_miss op k c w ep Hmiss Hep) as Hrun.
  destruct (football_data_get_failed ep w Hfail) as (w1 & Hget & _).
  rewrite Hget, (empty_document op k ep Hep) in Hrun.
  exists (lru_insert (maxsize_of op) k (empty_of op) c), w1.
  split; [exact Hrun|]. split.
  - unfold lru_insert. destruct (_ <=? _)%nat;
      apply lru_find_last; auto using lru_find_tail.
  - rewrite run_unfold in *. destruct (maxsize_of_pos op) as [n Hn].
    rewrite Hn in *. eapply lru_cache_again. exact Hrun.
Qed.

Lemma failure_is_cached_witness :
  let k := positional [AStr "57"] in
  let w := steady_world 503 VNone in
  let ep := "teams/57" in
  endpoint_of TeamInfo k = Ok ep
  /\ lru_find k [] = None
  /\ failed (next_answer w (BASE_URL +:+ ep)) = true
  /\ exists c1 w1,
       run TeamInfo k [] w = (Ok (empty_of TeamInfo), c1, w1)
       /\ lru_find k c1 = Some (empty_of TeamInfo)
       /\ forall w2, run TeamInfo k c1 w2 = (Ok (empty_of TeamInfo), c1, w2).
Proof.
  intros k w ep. split; [reflexivity|]. split; [reflexivity|]. split; [reflexivity|].
  apply (failure_is_cached TeamInfo k [] w ep); reflexivity.
Defined.

(** X5.  A standings group without a [type], met before any TOTAL group,
    makes [get_league_standings] raise KeyError, and so does a TOTAL group
    without a [table].  The request has been sent by then, and nothing is
    cached. *)
Theorem standings_group_without_key_raises (k : call) (c : lru) (w : world)
    (league_code season : arg) (d g : list (string * value))
    (before after : list value) :
  bind_params (params_of Standings) k = Ok [league_code; season] ->
  lru_find k c = None ->
  document (next_answer w (standings_url league_code season)) = Some (VDict d) ->
  dict_get d "standings" = Some (VList (before ++ VDict g :: after)) ->
  Forall (fun e => other_group e = true) before ->
  dict_get g "type" = None
  \/ (dict_get g "type" = Some (VStr "TOTAL") /\ dict_get g "table" = None) ->
  exists w1,
    get_league_standings k c w = (Raise KeyError, c, w1)
    /\ network_calls (trace w1)
       = network_calls (trace w) ++ [ERequest (standings_url league_code season)].
Proof.
  intros Hbind Hmiss Hdoc Hst Hbefore Hbad.
  set (ep := "competitions/" +:+ fmt league_code +:+ "/standings?season="
             +:+ fmt (default_season season)).
  assert (endpoint_of Standings k = Ok ep) as Hep
    by (unfold endpoint_of; rewrite Hbind; reflexivity).
  change (standings_url league_code season) with (BASE_URL +:+ ep) in *.
  change get_league_standings with (run Standings).
  rewrite (run_miss Standings k c w ep Hmiss Hep).
  pose proof (football_data_get_trace ep w) as Htrace.
  destruct (football_data_get_document ep w _ Hdoc) as (w1 & Hget & _).
  rewrite Hget in *. destruct Htrace as (Htrace & _).
  assert (first_total (before ++ VDict g :: after) = Raise KeyError) as Hloop.
  { clear -Hbefore Hbad. induction Hbefore as [|e groups He _ IH]; simpl.
    - destruct Hbad as [->|[-> ->]]; reflexivity.
    - destruct e as [| | | | |d']; simpl in He; try discriminate.
      simpl. destruct (dict_get d' "type") as [ty|]; [|discriminate]. simpl.
      destruct (py_eq ty (VStr "TOTAL")); [discriminate | exact IH]. }
  unfold result_of_document. rewrite lacks_dict, Hst. simpl.
  rewrite Hst. simpl. rewrite Hloop. simpl. eauto.
Qed.

Lemma standings_group_without_key_raises_witness :
  let k := positional [AStr "PL"; AStr "2023"] in
  let g := [("stage", VStr "REGULAR_SEASON")] in
  let d := [("standings", VList [VDict g])] in
  let w := steady_world 200 (VDict d) in
  exists w1,
    get_league_standings k [] w = (Raise KeyError, [], w1)
    /\ network_calls (trace w1)
       = network_calls (trace w) ++ [ERequest (standings_url (AStr "PL") (AStr "2023"))].
Proof.
  intros k g d w.
  apply (standings_group_without_key_raises k [] w (AStr "PL") (AStr "2023") d g [] []);
    try reflexivity; [constructor | left; reflexivity].
Defined.

(** X6.  On a miss whose answer is an object, [get_teams_in_league]
    returns what the object holds under [teams], as it is, and the empty
    list when the key is missing. *)
Theorem teams_are_passed_through (k : call) (c : lru) (w : world)
    (league_code season : arg) (d : list (string * value)) :
  bind_params (params_of Teams) k = Ok [league_code; season] ->
  lru_find k c = None ->
  document (next_answer w (BASE_URL +:+ "competitions/" +:+ fmt league_code
                           +:+ "/teams?season=" +:+ fmt (default_season season)))
  = Some (VDict d) ->
  exists c1 w1,
    get_teams_in_league k c w = (Ok (default (VList []) (dict_get d "teams")), c1, w1).
Proof.
  intros Hbind Hmiss Hdoc.
  set (ep := "competitions/" +:+ fmt league_code +:+ "/teams?season="
             +:+ fmt (default_season season)).
  assert (endpoint_of Teams k = Ok ep) as Hep
    by (unfold endpoint_of; rewrite Hbind; reflexivity).
  change get_teams_in_league with (run Teams).
  rewrite (run_miss Teams k c w ep Hmiss Hep).
  destruct (football_data_get_document ep w _ Hdoc) as (w1 & -> & _).
  unfold result_of_document. rewrite lacks_dict.
  destruct (dict_get d "teams") as [ts|] eqn:E; simpl; [rewrite E|]; eauto.
Qed.

Lemma teams_are_passed_through_witness :
  let k := positional [AStr "PL"] in
  let d := [("count", VInt 1); ("teams", VList [VDict [("id", VInt 57)]])] in
  let w := steady_world 200 (VDict d) in
  exists c1 w1,
    get_teams_in_league k [] w = (Ok (default (VList []) (dict_get d "teams")), c1, w1).
Proof.
  intros k d w.
  apply (teams_are_passed_through k [] w (AStr "PL") ANone d); reflexivity.
Defined.

(** X7.  On a miss [get_team_by_id] returns the decoded answer itself
    when it is truthy, whatever its type, and an empty dict for a falsy
    one (null, 0, an empty string, list or object). *)
Theorem team_document_or_empty (k : call) (c : lru) (w : world)
    (team_id : arg) (data : value) :
  bind_params (params_of TeamInfo) k = Ok [team_id] ->
  lru_find k c = None ->
  document (next_answer w (BASE_URL +:+ "teams/" +:+ fmt team_id)) = Some data ->
  exists c1 w1,
    get_team_by_id k c w = (Ok (if truthy data then data else VDict []), c1, w1).
Proof.
  intros Hbind Hmiss Hdoc.
  assert (endpoint_of TeamInfo k = Ok ("teams/" +:+ fmt team_id)) as Hep
    by (unfold endpoint_of; rewrite Hbind; reflexivity).
  change get_team_by_id with (run TeamInfo).
  rewrite (run_miss TeamInfo k c w _ Hmiss Hep).
  destruct (football_data_get_document _ w _ Hdoc) as (w1 & -> & _).
  simpl. eauto.
Qed.

Lemma team_document_or_empty_witness :
  let k := positional [AInt 57] in
  let data := VList [] in
  let w := steady_world 200 data in
  exists c1 w1, get_team_by_id k [] w = (Ok (VDict []), c1, w1).
Proof.
  intros k data w.
  apply (team_document_or_empty k [] w (AInt 57) data); reflexivity.
Defined.

(** ** Invariants of the cache *)

Lemma lru_access_distinct (maxsize : nat) (c : lru) (kv : call * value) :
  NoDup c.*1 -> NoDup (lru_access maxsize c kv).*1.
Proof.
  intros Hnd. destruct kv as [k v]. unfold lru_access, lru_touch, lru_insert. simpl.
  destruct (lru_find k c) as [v'|] eqn:E.
  - rewrite fmap_app, lru_keys_remove. simpl.
    apply NoDup_app. split; [by apply NoDup_filter|].
    split; [|apply NoDup_singleton].
    intros x Hx ->%list_elem_of_singleton.
    apply list_elem_of_filter in Hx. tauto.
  - apply lru_find_None in E.
    destruct (maxsize <=? length c)%nat; rewrite fmap_app; simpl;
      (apply NoDup_app; split; [|split; [|apply NoDup_singleton]]).
    + destruct c as [|[k0 v0] c]; [constructor|].
      simpl. rewrite fmap_cons in Hnd. by apply NoDup_cons in Hnd as [_ ?].
    + intros x Hx ->%list_elem_of_singleton. apply E.
      destruct c as [|[k0 v0] c]; [by apply elem_of_nil in Hx|].
      rewrite fmap_cons. apply elem_of_cons. by right.
    + assumption.
    + intros x Hx ->%list_elem_of_singleton. contradiction.
Qed.

Lemma run_keeps_invariant (op : operation) (k : call) (c c' : lru)
    (w w' : world) (r : res value) :
  run op k c w = (r, c', w') ->
  (length c <= maxsize_of op)%nat -> NoDup c.*1 ->
  (length c' <= maxsize_of op)%nat /\ NoDup c'.*1.
Proof.
  intros H Hlen Hnd.
  assert (0 < maxsize_of op)%nat as Hpos
    by (destruct (maxsize_of_pos op) as [n ->]; lia).
  destruct r as [v|e].
  - rewrite (run_is_access op k c c' w w' v H).
    split; [by apply lru_access_bounded | by apply lru_access_distinct].
  - destruct (run_cases _ _ _ _ _ _ _ H)
      as [(v & _ & [=] & _)|[(e' & _ & _ & _ & -> & _)|(ep & _ & _ & _ & _ & ->)]];
      auto.
Qed.

(** X8.  Whatever calls are made of a fetch operation, and whatever they
    return or raise, its cache never holds more entries than its
    [maxsize] (128 or 256) and never two entries for one call. *)
Theorem cache_stays_bounded (op : operation) (cs : list call) :
  forall (c : lru) (w : world),
    (length c <= maxsize_of op)%nat ->
    NoDup c.*1 ->
    (length (fst (run_calls op cs c w)) <= maxsize_of op)%nat
    /\ NoDup (fst (run_calls op cs c w)).*1.
Proof.
  induction cs as [|k cs IH]; intros c w Hlen Hnd; simpl; [auto|].
  destruct (run op k c w) as [[r c'] w'] eqn:E.
  destruct (run_keeps_invariant _ _ _ _ _ _ _ E Hlen Hnd) as [Hlen' Hnd'].
  apply IH; assumption.
Qed.

Lemma cache_stays_bounded_witness :
  let cs := [positional [AStr "PL"]; positional []; positional [AStr "PL"];
             positional [AStr "SA"; AStr "2022"]] in
  let w := steady_world 200 (VDict [("teams", VList [])]) in
  (length (@nil (call * value)) <= maxsize_of Teams)%nat
  /\ NoDup (@nil (call * value)).*1
  /\ (length (fst (run_calls Teams cs [] w)) <= maxsize_of Teams)%nat
  /\ NoDup (fst (run_calls Teams cs [] w)).*1.
Proof.
  intros cs w.
  assert (length (@nil (call * value)) <= maxsize_of Teams)%nat as Hlen
    by (simpl; lia).
  assert (NoDup (@nil (call * value)).*1) as Hnd by constructor.
  split; [exact Hlen|]. split; [exact Hnd|].
  exact (cache_stays_bounded Teams cs [] w Hlen Hnd).
Defined.

(** ** The limit and the matches *)

Lemma keep_finished_returns (ms fin : list value) :
  keep_finished ms = Ok fin ->
  Forall (fun m => is_dict m = true) ms /\ fin = List.filter finished ms.
Proof.
  revert fin. induction ms as [|m ms IH]; simpl; intros fin.
  - intros [= <-]. split; [constructor | reflexivity].
  - unfold is_finished. destruct m as [| | | | |d]; simpl; try discriminate.
    destruct (keep_finished ms) as [kept|] eqn:E; simpl; [|discriminate].
    destruct (IH kept eq_refl) as [Hall ->].
    intros [= <-]. split; [constructor; [reflexivity | assumption]|].
    unfold finished at 2, status_of, field. reflexivity.
Qed.

Lemma filter_finished_dicts (ms : list value) :
  Forall (fun m => is_dict m = true) ms ->
  Forall (fun m => is_dict m = true /\ status_of m = VStr "FINISHED")
         (List.filter finished ms).
Proof.
  induction 1 as [|m ms Hm _ IH]; simpl; [constructor|].
  destruct (finished m) eqn:E; [|assumption].
  constructor; [|assumption]. split; [assumption | by apply finished_status].
Qed.

(** X9.  Whatever the answer holds, a list that [get_last_matches_for_team]
    returns from a miss is made of objects whose status is FINISHED, and of
    no more than [limit] of them when the limit is not negative: a match
    that is not finished is never returned. *)
Theorem only_finished_matches_returned (k : call) (c c' : lru) (w w' : world)
    (team_id season : arg) (limit : Z) (v : value) :
  bind_params (params_of Matches) k = Ok [team_id; season; AInt limit] ->
  lru_find k c = None ->
  get_last_matches_for_team k c w = (Ok v, c', w') ->
  exists out, v = VList out
    /\ Forall (fun m => is_dict m = true /\ status_of m = VStr "FINISHED") out
    /\ (0 <= limit -> Z.of_nat (length out) <= limit).
Proof.
  intros Hbind Hmiss Hrun. change get_last_matches_for_team with (run Matches) in Hrun.
  destruct (run_cases _ _ _ _ _ _ _ Hrun)
    as [(v' & Hf & _)|[(e & _ & _ & [=] & _)|(ep & _ & _ & _ & Hres & _)]];
    [congruence|].
  symmetry in Hres. unfold result_of_document in Hres.
  rewrite Hbind in Hres. simpl in Hres. unfold matches_result in Hres.
  destruct (lacks _ "matches") as [[|]|]; simpl in Hres; try discriminate.
  - injection Hres as <-. exists []. split; [reflexivity|].
    split; [constructor | simpl; lia].
  - destruct (py_getitem _ "matches") as [all|]; simpl in Hres; [|discriminate].
    destruct (py_iter all) as [ms|]; simpl in Hres; [|discriminate].
    destruct (keep_finished ms) as [fin|] eqn:Hkeep; simpl in Hres; [|discriminate].
    destruct (keep_finished_returns ms fin Hkeep) as [Hall ->].
    pose proof (filter_finished_dicts ms Hall) as Hfin.
    destruct (Z.leb_spec 0 limit); injection Hres as <-;
      (eexists; split; [reflexivity|]; split; [by apply Forall_take|]).
    + intros _. rewrite length_take. lia.
    + lia.
Qed.

Lemma only_finished_matches_returned_witness :
  let k := positional [AStr "57"; AStr "2023"; AInt 5] in
  let w := steady_world 200 (VDict [("matches", VList ten_matches)]) in
  exists v c' w',
    get_last_matches_for_team k [] w = (Ok v, c', w')
    /\ exists out, v = VList out
         /\ Forall (fun m => is_dict m = true /\ status_of m = VStr "FINISHED") out
         /\ (0 <= 5 -> Z.of_nat (length out) <= 5).
Proof.
  intros k w.
  destruct (get_last_matches_for_team k [] w) as [[[v|e] c'] w'] eqn:E;
    [|vm_compute in E; discriminate].
  exists v, c', w'. split; [reflexivity|].
  exact (only_finished_matches_returned k [] c' w w' (AStr "57") (AStr "2023") 5 v
           eq_refl eq_refl E).
Defined.

(** X10.  The limit of the query string may be negative.  For a limit
    [-n] the upstream is asked for [limit=-2n], and the list returned is
    the FINISHED matches of the answer without the last [n] of them (the
    Python slice [[:-n]]), not an empty list. *)
Theorem negative_limit_drops_last (k : call) (c : lru) (w : world)
    (team_id season : arg) (limit : Z) (data : value) (ms : list value) :
  bind_params (params_of Matches) k = Ok [team_id; season; AInt limit] ->
  limit < 0 ->
  lru_find k c = None ->
  document (next_answer w (matches_url team_id season limit)) = Some data ->
  holds_matches data ms ->
  exists c1 w1,
    get_last_matches_for_team k c w
    = (Ok (VList (take (length (List.filter finished ms) - Z.to_nat (- limit))
                       (List.filter finished ms))), c1, w1).
Proof.
  intros Hbind Hlimit Hmiss Hdoc Hholds.
  set (ep := "teams/" +:+ fmt team_id +:+ "/matches?season="
             +:+ fmt (default_season season) +:+ "&limit=" +:+ pretty (limit * 2)).
  assert (endpoint_of Matches k = Ok ep) as Hep
    by (unfold endpoint_of; rewrite Hbind; reflexivity).
  change (matches_url team_id season limit) with (BASE_URL +:+ ep) in *.
  change get_last_matches_for_team with (run Matches).
  rewrite (run_miss Matches k c w ep Hmiss Hep).
  destruct (football_data_get_document ep w data Hdoc) as (w1 & -> & _).
  unfold result_of_document. rewrite Hbind. simpl res_bind. simpl nth.
  assert (matches_result (AInt limit) data
          = Ok (VList (take (length (List.filter finished ms) - Z.to_nat (- limit))
                            (List.filter finished ms)))) as ->; [|eauto].
  destruct Hholds as (d & -> & [[Hnone ->]|[Hsome Hall]]); unfold matches_result.
  - rewrite lacks_dict, Hnone. reflexivity.
  - rewrite lacks_dict, Hsome. simpl. rewrite Hsome. simpl.
    rewrite keep_finished_dicts by assumption. simpl.
    destruct (Z.leb_spec 0 limit); [lia|].
    replace (Z.to_nat (Z.of_nat (length (List.filter finished ms)) + limit))
      with (length (List.filter finished ms) - Z.to_nat (- limit))%nat by lia.
    reflexivity.
Qed.

Lemma negative_limit_drops_last_witness :
  let k := positional [AStr "57"; AStr "2023"; AInt (-2)] in
  let data := VDict [("matches", VList ten_matches)] in
  let w := steady_world 200 data in
  exists c1 w1,
    get_last_matches_for_team k [] w
    = (Ok (VList (take (length (List.filter finished ten_matches) - Z.to_nat (- (-2)))
                       (List.filter finished ten_matches))), c1, w1).
Proof.
  intros k data w.
  apply (negative_limit_drops_last k [] w (AStr "57") (AStr "2023") (-2) data ten_matches);
    try reflexivity.
  eexists. split; [reflexivity|]. right. split; [reflexivity|]. repeat constructor.
Defined.

(** * Further properties of the normaliser *)

Section NormalizerMore.

Variable datetime : Type.
Variable fromisoformat : string -> option datetime.
Variable container_str : value -> string.

Local Abbreviation normalize := (normalize_match datetime fromisoformat container_str).
Local Abbreviation build := (build_match_list_from_matches datetime fromisoformat container_str).
Local Abbreviation loop := (build_loop datetime fromisoformat container_str).
Local Abbreviation str := (py_str container_str).
Local Abbreviation parse := (parse_date datetime fromisoformat).

Lemma build_loop_returns (ms : list value) (team_id : value) :
  forall acc out,
    loop ms team_id acc = Ok out ->
    exists rs, out = acc ++ rs
      /\ Forall2 (fun m r => normalize m team_id = Ok r) ms rs.
Proof.
  induction ms as [|m ms IH]; intros acc out; simpl.
  - intros [= <-]. exists []. split; [by rewrite app_nil_r | constructor].
  - destruct (normalize m team_id) as [r|e] eqn:E; simpl; [|discriminate].
    intros H. destruct (IH _ _ H) as (rs & -> & Hrs).
    exists (r :: rs). split; [by rewrite <- app_assoc | by constructor].
Qed.

(** X11.  [build_match_list_from_matches] returns a list exactly when
    the loop body returns on every match, and the list is then the records
    of the matches, one each, in the order of the input. *)
Theorem build_returns_the_records (ms : list value) (team_id : value)
    (rs : list (normalized datetime)) :
  build ms team_id = Ok rs
  <-> Forall2 (fun m r => normalize m team_id = Ok r) ms rs.
Proof.
  unfold build_match_list_from_matches. split.
  - intros H. destruct (build_loop_returns _ _ _ _ H) as (rs' & -> & Hrs). exact Hrs.
  - intros H. rewrite (build_loop_spec _ _ _ ms team_id [] rs H). reflexivity.
Qed.

(** X12.  One match on which the loop body raises makes the whole call
    raise that exception: the records of the matches before it are lost
    and the matches after it are not looked at. *)
Theorem build_stops_at_first_exception (ms1 ms2 : list value) (m team_id : value)
    (e : exn) :
  (exists rs, Forall2 (fun m r => normalize m team_id = Ok r) ms1 rs) ->
  normalize m team_id = Raise e ->
  build (ms1 ++ m :: ms2) team_id = Raise e.
Proof.
  intros [rs Hrs] He. unfold build_match_list_from_matches.
  eapply build_loop_raise; eassumption.
Qed.

(** The loop body once the objects before the comparison are there. *)
Lemma normalize_objects (m team_id : value) :
  is_dict m = true -> is_dict (score_object m) = true ->
  is_dict (home_team m) = true -> is_dict (away_team m) = true ->
  is_dict (full_time m) = true ->
  normalize m team_id =
    let home := String.eqb (str team_id) (str (home_id m)) in
    let goals_for := if home then home_score m else away_score m in
    let goals_against := if home then away_score m else home_score m in
    (result <- classify goals_for goals_against ;;
     competition <- py_get (competition_object m) "name" (VStr "") ;;
     Ok {| date := parse (utc_date m);
           opponent := if home then away_name m else home_name m;
           goals_for := goals_for;
           goals_against := goals_against;
           result := result;
           is_home := home;
           status := "Finalizado";
           competition := competition;
           raw := m |})%res.
Proof.
  intros Hm Hs Hh Ha Hf. unfold normalize_match.
  rewrite !(py_get_field m) by assumption. simpl res_bind.
  fold (home_team m) (away_team m) (score_object m) (utc_date m).
  rewrite (py_get_field (score_object m)) by assumption. simpl res_bind.
  fold (full_time m).
  rewrite !(py_get_field (home_team m)), !(py_get_field (away_team m)),
    !(py_get_field (full_time m)) by assumption.
  simpl res_bind.
  fold (home_id m) (away_id m) (home_name m) (away_name m)
    (home_score m) (away_score m) (competition_object m).
  destruct (String.eqb (str team_id) (str (home_id m))); reflexivity.
Qed.

Lemma classify_comparable (f a : value) :
  (exists x, classify f a = Ok x) <-> comparable f a = true.
Proof.
  unfold classify, comparable.
  destruct f, a; try (split; [reflexivity | intros _; eexists; reflexivity]);
    (destruct (py_gt _ _) as [[|]|];
     [ split; [reflexivity | intros _; eexists; reflexivity]
     | split; [reflexivity | intros _; destruct (py_eq _ _); eexists; reflexivity]
     | split; [intros [x H]; discriminate | discriminate] ]).
Qed.

(** X13.  The loop body returns a record exactly when every value it
    calls [get] on (the match, its homeTeam, awayTeam, score, fullTime and
    competition, an empty object standing for a missing key) is an object
    and the two goal counts can be compared; otherwise it raises. *)
Theorem normalize_returns_iff (m team_id : value) :
  (exists r, normalize m team_id = Ok r)
  <-> objects_ok m = true
      /\ comparable
           (if String.eqb (str team_id) (str (home_id m))
            then home_score m else away_score m)
           (if String.eqb (str team_id) (str (home_id m))
            then away_score m else home_score m) = true.
Proof.
  unfold objects_ok.
  destruct (is_dict m) eqn:Hm; simpl andb.
  2: { split; [|intros [[=] _]]. intros [r Hr].
       unfold normalize_match in Hr.
       rewrite (py_get_not_dict m) in Hr by assumption. discriminate. }
  destruct (is_dict (score_object m)) eqn:Hs.
  2: { rewrite !andb_false_r. simpl. split; [|intros [[=] _]]. intros [r Hr].
       unfold normalize_match in Hr.
       rewrite !(py_get_field m) in Hr by assumption. simpl res_bind in Hr.
       fold (score_object m) in Hr.
       rewrite (py_get_not_dict (score_object m)) in Hr by assumption.
       discriminate. }
  destruct (is_dict (home_team m)) eqn:Hh; simpl andb.
  2: { split; [|intros [[=] _]]. intros [r Hr].
       unfold normalize_match in Hr.
       rewrite !(py_get_field m) in Hr by assumption. simpl res_bind in Hr.
       fold (score_object m) (home_team m) in Hr.
       rewrite (py_get_field (score_object m)) in Hr by assumption.
       simpl res_bind in Hr.
       rewrite (py_get_not_dict (home_team m)) in Hr by assumption.
       discriminate. }
  destruct (is_dict (away_team m)) eqn:Ha; simpl andb.
  2: { split; [|intros [[=] _]]. intros [r Hr].
       unfold normalize_match in Hr.
       rewrite !(py_get_field m) in Hr by assumption. simpl res_bind in Hr.
       fold (score_object m) (home_team m) (away_team m) in Hr.
       rewrite (py_get_field (score_object m)) in Hr by assumption.
       simpl res_bind in Hr.
       rewrite (py_get_field (home_team m)) in Hr by assumption.
       simpl res_bind in Hr.
       rewrite (py_get_not_dict (away_team m)) in Hr by assumption.
       discriminate. }
  destruct (is_dict (full_time m)) eqn:Hf; simpl andb.
  2: { split; [|intros [[=] _]]. intros [r Hr].
       unfold normalize_match in Hr.
       rewrite !(py_get_field m) in Hr by assumption. simpl res_bind in Hr.
       fold (score_object m) (home_team m) (away_team m) in Hr.
       rewrite (py_get_field (score_object m)) in Hr by assumption.
       simpl res_bind in Hr. fold (full_time m) in Hr.
       rewrite !(py_get_field (home_team m)), !(py_get_field (away_team m)) in Hr
         by assumption.
       simpl res_bind in Hr.
       rewrite (py_get_not_dict (full_time m)) in Hr by assumption.
       discriminate. }
  rewrite (normalize_objects m team_id Hm Hs Hh Ha Hf). cbv zeta.
  rewrite <- classify_comparable.
  destruct (classify _ _) as [x|e]; simpl res_bind.
  - destruct (is_dict (competition_object m)) eqn:Hc.
    + rewrite (py_get_field _ _ _ Hc). simpl. split; eauto.
    + rewrite (py_get_not_dict _ _ _ Hc). simpl.
      split; [intros [r [=]] | intros [[=] _]].
  - split; [intros [r [=]] | intros [_ [x [=]]]].
Qed.

Lemma result_of_mirror (f a : value) : result_of f a = mirror (result_of a f).
Proof.
  destruct f, a; simpl; try reflexivity.
  destruct (Z.ltb_spec z0 z), (Z.ltb_spec z z0), (Z.eqb_spec z z0), (Z.eqb_spec z0 z);
    simpl; try reflexivity; lia.
Qed.

(** X14.  The two sides of a raw match see mirrored records: for the
    home perspective and any other perspective the goals for and against
    are swapped, W and L are swapped, D and None stay, the opponents are
    the away and the home team, and date and competition are the same. *)
Theorem perspectives_mirror (m home_side away_side : value) :
  raw_match m = true ->
  str home_side = str (home_id m) ->
  str away_side <> str (home_id m) ->
  exists rh ra,
    normalize m home_side = Ok rh /\ normalize m away_side = Ok ra
    /\ is_home rh = true /\ is_home ra = false
    /\ goals_for rh = goals_against ra /\ goals_against rh = goals_for ra
    /\ result rh = mirror (result ra)
    /\ opponent rh = away_name m /\ opponent ra = home_name m
    /\ date rh = date ra /\ competition rh = competition ra.
Proof.
  intros Hraw Hh Ha.
  rewrite (normalize_raw _ _ _ m home_side Hraw), (normalize_raw _ _ _ m away_side Hraw).
  cbv zeta. apply String.eqb_eq in Hh. apply String.eqb_neq in Ha.
  rewrite Hh, Ha. do 2 eexists. split; [reflexivity|]. split; [reflexivity|].
  simpl. repeat split; try reflexivity. apply result_of_mirror.
Qed.

Lemma normalize_by_text (m t1 t2 : value) :
  str t1 = str t2 -> normalize m t1 = normalize m t2.
Proof.
  intros H. unfold normalize_match.
  repeat match goal with
         | |- context [res_bind (py_get ?v ?k ?d) _] =>
             destruct (py_get v k d); simpl res_bind; [|reflexivity]
         end.
  rewrite H. reflexivity.
Qed.

Lemma build_loop_by_text (ms : list value) (t1 t2 : value) :
  str t1 = str t2 -> forall acc, loop ms t1 acc = loop ms t2 acc.
Proof.
  intros H. induction ms as [|m ms IH]; intros acc; simpl; [reflexivity|].
  rewrite (normalize_by_text m t1 t2 H).
  destruct (normalize m t2); simpl; [apply IH | reflexivity].
Qed.

(** X15.  The perspective team enters only through its text: a team id
    given as the int 57 and as the str "57" yield the same list, on any
    input. *)
Theorem int_and_text_perspective_agree (ms : list value) (z : Z) :
  build_match_list_from_matches datetime fromisoformat container_str ms (VInt z)
  = build_match_list_from_matches datetime fromisoformat container_str ms
      (VStr (pretty z)).
Proof.
  unfold build_match_list_from_matches. apply build_loop_by_text. reflexivity.
Qed.

Lemma string_app_assoc (a b c : string) : (a +:+ b) +:+ c = a +:+ b +:+ c.
Proof.
  induction a as [|x a IH]; [reflexivity|].
  change (String x ((a +:+ b) +:+ c) = String x (a +:+ b +:+ c)).
  f_equal. exact IH.
Qed.

Lemma str_replace_app (c : ascii) (t a b : string) :
  str_replace c t (a +:+ b) = str_replace c t a +:+ str_replace c t b.
Proof.
  induction a as [|x a IH]; [reflexivity|].
  change (String x a +:+ b) with (String x (a +:+ b)). cbn [str_replace].
  destruct (Ascii.eqb x c); rewrite IH;
    [symmetry; apply string_app_assoc | reflexivity].
Qed.

Lemma str_replace_absent (c : ascii) (t s : string) :
  c ∉ list_ascii_of_string s -> str_replace c t s = s.
Proof.
  induction s as [|x s IH]; simpl; [reflexivity|].
  intros H. apply not_elem_of_cons in H as [Hne Hs].
  destruct (Ascii.eqb_spec x c); [congruence|]. by rewrite IH.
Qed.

(** X16.  A timestamp with the UTC suffix Z and no other Z is handed to
    [fromisoformat] with the offset +00:00 in place of the suffix. *)
Theorem utc_suffix_becomes_offset (s : string) :
  "Z"%char ∉ list_ascii_of_string s ->
  parse_date datetime fromisoformat (VStr (s +:+ "Z")) = fromisoformat (s +:+ "+00:00").
Proof.
  intros H. unfold parse_date.
  assert (truthy (VStr (s +:+ "Z")) = true) as -> by (destruct s; reflexivity).
  simpl. rewrite str_replace_app, (str_replace_absent _ _ _ H). reflexivity.
Qed.

End NormalizerMore.

Lemma build_stops_at_first_exception_witness :
  let good := sample_match "FINISHED" (VInt 2) (VInt 1) in
  let bad := VDict [("score", VNone)] in
  (exists rs, Forall2 (fun m r =>
      normalize_match string text_datetime no_container_str m (VStr "57") = Ok r)
      [good] rs)
  /\ normalize_match string text_datetime no_container_str bad (VStr "57")
     = Raise AttributeError
  /\ build_match_list_from_matches string text_datetime no_container_str
       ([good] ++ bad :: [good]) (VStr "57") = Raise AttributeError.
Proof.
  intros good bad.
  assert (exists rs, Forall2 (fun m r =>
      normalize_match string text_datetime no_container_str m (VStr "57") = Ok r)
      [good] rs) as Hgood.
  { eexists [_]. constructor; [reflexivity | constructor]. }
  split; [exact Hgood|]. split; [reflexivity|].
  exact (build_stops_at_first_exception string text_datetime no_container_str
           [good] [good] bad (VStr "57") AttributeError Hgood eq_refl).
Defined.

Lemma perspectives_mirror_witness :
  let m := sample_match "FINISHED" (VInt 2) (VInt 1) in
  exists rh ra,
    normalize_match string text_datetime no_container_str m (VInt 57) = Ok rh
    /\ normalize_match string text_datetime no_container_str m (VStr "61") = Ok ra
    /\ is_home rh = true /\ is_home ra = false
    /\ goals_for rh = goals_against ra /\ goals_against rh = goals_for ra
    /\ result rh = mirror (result ra)
    /\ opponent rh = away_name m /\ opponent ra = home_name m
    /\ date rh = date ra /\ competition rh = competition ra.
Proof.
  intros m.
  apply (perspectives_mirror string text_datetime no_container_str m (VInt 57) (VStr "61"));
    [reflexivity | reflexivity | vm_compute; discriminate].
Defined.

Lemma utc_suffix_becomes_offset_witness :
  ("Z"%char ∉ list_ascii_of_string "2023-08-12T11:30:00")
  /\ parse_date string text_datetime (VStr ("2023-08-12T11:30:00" +:+ "Z"))
     = text_datetime ("2023-08-12T11:30:00" +:+ "+00:00").
Proof.
  assert ("Z"%char ∉ list_ascii_of_string "2023-08-12T11:30:00") as H
    by (apply (bool_decide_unpack _); vm_compute; exact I).
  split; [exact H|].
  exact (utc_suffix_becomes_offset string text_datetime "2023-08-12T11:30:00" H).
Defined.

(** * Properties of the routes *)

(** ** [api_teams] *)

Lemma simple_teams_objects (ts : list value) :
  Forall (fun t => is_dict t = true) ts ->
  simple_teams ts = Ok (map id_and_name ts).
Proof.
  induction 1 as [|t ts Ht _ IH]; simpl; [reflexivity|].
  rewrite !(py_get_field t) by assumption. simpl. rewrite IH. reflexivity.
Qed.

(** X17.  When the answer of the upstream fails (a 4xx or 5xx status,
    an exception of the transport, a body that does not decode),
    [api_teams] still replies with status 200 and an empty list of teams:
    the failure does not reach the client of the API. *)
Theorem api_teams_hides_upstream_failure (q : query) (c : lru) (w : world)
    (league : string) :
  league_id_arg q = Some league ->
  league <> "" ->
  let k := positional [AStr league; AStr (default "2023" (season_arg q))] in
  let url := BASE_URL +:+ "competitions/" +:+ league +:+ "/teams?season="
             +:+ fmt (default_season (AStr (default "2023" (season_arg q)))) in
  lru_find k c = None ->
  failed (next_answer w url) = true ->
  exists c' w',
    api_teams q c w = (Json 200 (VDict [("teams", VList [])]), c', w')
    /\ lru_find k c' = Some (VList []).
Proof.
  intros Hq Hne k url Hmiss Hfail. unfold api_teams. rewrite Hq.
  apply String.eqb_neq in Hne. rewrite Hne. simpl negb. cbv iota.
  fold k.
  set (ep := "competitions/" +:+ league +:+ "/teams?season="
             +:+ fmt (default_season (AStr (default "2023" (season_arg q))))).
  assert (endpoint_of Teams k = Ok ep) as Hep by reflexivity.
  change url with (BASE_URL +:+ ep) in Hfail.
  change get_teams_in_league with (run Teams).
  rewrite (run_miss Teams k c w ep Hmiss Hep).
  destruct (football_data_get_failed ep w Hfail) as (w1 & -> & _).
  rewrite (empty_document Teams k ep Hep). simpl.
  do 2 eexists. split; [reflexivity|].
  unfold lru_insert. destruct (_ <=? _)%nat;
    apply lru_find_last; auto using lru_find_tail.
Qed.

Lemma api_teams_hides_upstream_failure_witness :
  let q := {| league_id_arg := Some "PL"; team_id_arg := None;
              season_arg := None; limit_arg := None |} in
  let w := steady_world 429 VNone in
  let k := positional [AStr "PL"; AStr "2023"] in
  exists c' w',
    api_teams q [] w = (Json 200 (VDict [("teams", VList [])]), c', w')
    /\ lru_find k c' = Some (VList []).
Proof.
  intros q w k.
  apply (api_teams_hides_upstream_failure q [] w "PL");
    [reflexivity | discriminate | reflexivity | reflexivity].
Defined.

(** X18.  On a miss whose answer holds a list of team objects,
    [api_teams] replies with status 200 and one entry per team, in the
    order of the answer, each with exactly the keys id and name (None for
    a key the team lacks); everything else of a team is dropped. *)
Theorem api_teams_sends_id_and_name (q : query) (c : lru) (w : world)
    (league : string) (d : list (string * value)) (ts : list value) :
  league_id_arg q = Some league ->
  league <> "" ->
  let k := positional [AStr league; AStr (default "2023" (season_arg q))] in
  let url := BASE_URL +:+ "competitions/" +:+ league +:+ "/teams?season="
             +:+ fmt (default_season (AStr (default "2023" (season_arg q)))) in
  lru_find k c = None ->
  document (next_answer w url) = Some (VDict d) ->
  dict_get d "teams" = Some (VList ts) ->
  Forall (fun t => is_dict t = true) ts ->
  exists c' w',
    api_teams q c w
    = (Json 200 (VDict [("teams", VList (map id_and_name ts))]), c', w').
Proof.
  intros Hq Hne k url Hmiss Hdoc Hteams Hall. unfold api_teams. rewrite Hq.
  apply String.eqb_neq in Hne. rewrite Hne. simpl negb. cbv iota.
  fold k.
  set (ep := "competitions/" +:+ league +:+ "/teams?season="
             +:+ fmt (default_season (AStr (default "2023" (season_arg q))))).
  assert (endpoint_of Teams k = Ok ep) as Hep by reflexivity.
  change url with (BASE_URL +:+ ep) in Hdoc.
  change get_teams_in_league with (run Teams).
  rewrite (run_miss Teams k c w ep Hmiss Hep).
  destruct (football_data_get_document ep w _ Hdoc) as (w1 & -> & _).
  unfold result_of_document. rewrite lacks_dict, Hteams. simpl.
  rewrite Hteams. simpl. rewrite (simple_teams_objects ts Hall). eauto.
Qed.

Lemma api_teams_sends_id_and_name_witness :
  let q := {| league_id_arg := Some "PL"; team_id_arg := None;
              season_arg := Some "2022"; limit_arg := None |} in
  let ts := [VDict [("id", VInt 57); ("name", VStr "Arsenal FC"); ("tla", VStr "ARS")];
             VDict [("id", VInt 61)]] in
  let d := [("count", VInt 2); ("teams", VList ts)] in
  let w := steady_world 200 (VDict d) in
  exists c' w',
    api_teams q [] w
    = (Json 200 (VDict [("teams", VList (map id_and_name ts))]), c', w').
Proof.
  intros q ts d w.
  apply (api_teams_sends_id_and_name q [] w "PL" d ts);
    try reflexivity; [discriminate | repeat constructor].
Defined.

(** ** [index] *)

Lemma cache_of_with_same (op : operation) (c : lru) (cs : caches) :
  cache_of op (with_cache op c cs) = c.
Proof. destruct op; reflexivity. Qed.

Lemma cache_of_with_other (op op' : operation) (c : lru) (cs : caches) :
  op' <> op -> cache_of op' (with_cache op c cs) = cache_of op' cs.
Proof. destruct op, op'; try reflexivity; contradiction. Qed.

Lemma with_cache_same (op : operation) (cs : caches) :
  with_cache op (cache_of op cs) cs = cs.
Proof. destruct op, cs; reflexivity. Qed.

Lemma call_op_run (op : operation) (a : list arg) (cs cs' : caches)
    (w w' : world) (r : res value) :
  call_op op a cs w = (r, cs', w') ->
  exists c', run op (positional a) (cache_of op cs) w = (r, c', w')
             /\ cs' = with_cache op c' cs.
Proof.
  unfold call_op. destruct (run op _ _ w) as [[r0 c0] w0].
  intros [= <- <- <-]. eauto.
Qed.

Lemma run_network_calls (op : operation) (k : call) (c c' : lru) (w w' : world)
    (r : res value) :
  run op k c w = (r, c', w') ->
  exists new, network_calls (trace w') = network_calls (trace w) ++ new
              /\ (length new <= 1)%nat.
Proof.
  intros H. destruct (run_cases _ _ _ _ _ _ _ H)
    as [(v & _ & _ & _ & ->)|[(e & _ & _ & _ & _ & ->)|(ep & _ & _ & -> & _)]].
  - exists []. rewrite app_nil_r. simpl. split; [reflexivity | lia].
  - exists []. rewrite app_nil_r. simpl. split; [reflexivity | lia].
  - pose proof (football_data_get_trace ep w) as Ht.
    destruct (football_data_get ep w) as [data w1]. destruct Ht as (Ht & _).
    eexists. split; [exact Ht | simpl; lia].
Qed.

Lemma call_op_network_calls (op : operation) (a : list arg) (cs cs' : caches)
    (w w' : world) (r : res value) :
  call_op op a cs w = (r, cs', w') ->
  exists new, network_calls (trace w') = network_calls (trace w) ++ new
              /\ (length new <= 1)%nat.
Proof.
  intros H. destruct (call_op_run _ _ _ _ _ _ _ H) as (c' & Hrun & _).
  eapply run_network_calls. exact Hrun.
Qed.

(** A call that returned is replayed from any caches in which its
    operation has the cache the call left. *)
Lemma call_op_replay (op : operation) (a : list arg) (cs cs1 : caches)
    (w w1 : world) (v : value) :
  call_op op a cs w = (Ok v, cs1, w1) ->
  forall cs2 w2, cache_of op cs2 = cache_of op cs1 ->
    call_op op a cs2 w2 = (Ok v, cs2, w2).
Proof.
  intros H cs2 w2 Hsame.
  destruct (call_op_run _ _ _ _ _ _ _ H) as (c' & Hrun & ->).
  rewrite cache_of_with_same in Hsame.
  rewrite run_unfold in Hrun. destruct (maxsize_of_pos op) as [n Hn].
  rewrite Hn in Hrun.
  pose proof (lru_cache_again _ _ _ _ _ _ _ _ Hrun w2) as Hagain.
  unfold call_op. rewrite run_unfold, Hn, Hsame, Hagain.
  rewrite <- Hsame, with_cache_same. reflexivity.
Qed.

Lemma call_op_frame (op op' : operation) (a : list arg) (cs cs' : caches)
    (w w' : world) (r : res value) :
  call_op op a cs w = (r, cs', w') ->
  op' <> op -> cache_of op' cs' = cache_of op' cs.
Proof.
  intros H Hne. destruct (call_op_run _ _ _ _ _ _ _ H) as (c' & _ & ->).
  by apply cache_of_with_other.
Qed.

Section RoutesFacts.

Variable datetime : Type.
Variable fromisoformat : string -> option datetime.
Variable container_str : value -> string.
Variable py_int : string -> option Z.

Local Abbreviation page_of := (index_get datetime fromisoformat container_str py_int).

Ltac crunch H :=
  repeat first
    [ progress (cbv beta iota zeta delta [andb] in H)
    | match type of H with
      | context [call_op ?op ?a ?cs ?w] =>
          let E := fresh "Hcall" in
          destruct (call_op op a cs w) as [[[?|?] ?] ?] eqn:E;
          apply call_op_network_calls in E; destruct E as (? & ? & ?)
      end
    | match type of H with
      | context [match ?x with Ok _ => _ | Raise _ => _ end] => destruct x
      end ].

(** X19.  One load of the index page sends at most two requests for the
    league (teams, standings) and two for the team (team, matches), and
    none at all when the query names neither. *)
Theorem page_requests_bounded (q : query) (cs cs' : caches) (w w' : world)
    (r : res (page datetime)) :
  page_of q cs w = (r, cs', w') ->
  exists new, network_calls (trace w') = network_calls (trace w) ++ new
    /\ (length new
        <= (if nonempty (default "" (league_id_arg q)) then 2 else 0)
           + (if nonempty (default "" (team_id_arg q)) then 2 else 0))%nat.
Proof.
  unfold index_get, R_bind, R_ret, R_lift. intros H.
  destruct (nonempty (default "" (league_id_arg q))),
           (nonempty (default "" (team_id_arg q))),
           (nonempty (default "2023" (season_arg q)));
    crunch H; injection H as <- <- <-;
    repeat match goal with
           | E : network_calls (trace _) = _ |- _ => rewrite E; clear E
           end;
    rewrite <- ?app_assoc;
    (eexists; split; [reflexivity || (rewrite app_nil_r; reflexivity)|]);
    rewrite ?length_app; simpl; lia.
Qed.

Ltac walk H :=
  repeat first
    [ progress (cbv beta iota zeta delta [andb] in H)
    | match type of H with
      | context [call_op ?op ?a ?cs ?w] =>
          let E := fresh "Hcall" in
          destruct (call_op op a cs w) as [[[?|?] ?] ?] eqn:E
      end
    | match type of H with
      | context [match ?x with Ok _ => _ | Raise _ => _ end] =>
          let E := fresh "Hres" in destruct x eqn:E
      end ];
  try discriminate H.

Ltac same_cache :=
  repeat match goal with
         | F : forall op', op' <> _ -> cache_of op' ?c = _ |- cache_of _ ?c = _ =>
             rewrite F by discriminate
         end;
  reflexivity.

(** X20.  Once a load of the index page has returned, the same query is
    served from the caches alone: it gives the same page in every later
    world, and sends no request, sleeps for nothing and leaves the four
    caches as they are. *)
Theorem reload_is_served_from_caches (q : query) (cs cs1 : caches) (w w1 : world)
    (p : page datetime) :
  page_of q cs w = (Ok p, cs1, w1) ->
  forall w2, page_of q cs1 w2 = (Ok p, cs1, w2).
Proof.
  unfold index_get, R_bind, R_ret, R_lift. intros H w2.
  destruct (nonempty (default "" (league_id_arg q))),
           (nonempty (default "" (team_id_arg q))),
           (nonempty (default "2023" (season_arg q)));
    walk H; injection H as <- <- <-;
    repeat match goal with
           | Hc : call_op ?op _ ?c0 _ = (_, ?c1, _) |- _ =>
               lazymatch goal with
               | _ : forall op', op' <> op -> cache_of op' c1 = cache_of op' c0 |- _ => fail
               | _ => pose proof (fun op' => call_op_frame op op' _ _ _ _ _ _ Hc)
               end
           end;
    repeat first
      [ match goal with
        | Hc : call_op ?op ?a _ _ = (Ok _, _, _)
          |- context [call_op ?op ?a ?cs2 ?w2] =>
            rewrite (call_op_replay _ _ _ _ _ _ _ Hc cs2 w2) by same_cache
        end
      | match goal with
        | E : ?x = Ok _ |- context [?x] => rewrite E
        end
      | progress (cbv beta iota zeta delta [andb]) ];
    reflexivity.
Qed.

End RoutesFacts.

(** The page theorems at a query for a league and a team, with a server
    that answers every request with one document. *)

Lemma page_requests_bounded_witness :
  let q := {| league_id_arg := Some "PL"; team_id_arg := Some "57";
              season_arg := None; limit_arg := Some "5" |} in
  let w := steady_world 200
             (VDict [("teams", VList []); ("matches", VList ten_matches);
                     ("standings", VList [])]) in
  exists r cs' w',
    index_get string text_datetime no_container_str digits_only q no_caches w
    = (r, cs', w')
    /\ exists new, network_calls (trace w') = network_calls (trace w) ++ new
         /\ (length new
             <= (if nonempty (default "" (league_id_arg q)) then 2 else 0)
                + (if nonempty (default "" (team_id_arg q)) then 2 else 0))%nat.
Proof.
  intros q w.
  destruct (index_get string text_datetime no_container_str digits_only q no_caches w)
    as [[r cs'] w'] eqn:E.
  exists r, cs', w'. split; [reflexivity|].
  exact (page_requests_bounded string text_datetime no_container_str digits_only
           q no_caches cs' w w' r E).
Defined.

Lemma reload_is_served_from_caches_witness :
  let q := {| league_id_arg := Some "PL"; team_id_arg := Some "57";
              season_arg := None; limit_arg := Some "5" |} in
  let w := steady_world 200
             (VDict [("teams", VList []); ("matches", VList ten_matches);
                     ("standings", VList [])]) in
  exists p cs1 w1,
    index_get string text_datetime no_container_str digits_only q no_caches w
    = (Ok p, cs1, w1)
    /\ forall w2,
         index_get string text_datetime no_container_str digits_only q cs1 w2
         = (Ok p, cs1, w2).
Proof.
  intros q w.
  destruct (index_get string text_datetime no_container_str digits_only q no_caches w)
    as [[[p|e] cs1] w1] eqn:E; [|vm_compute in E; discriminate].
  exists p, cs1, w1. split; [reflexivity|].
  exact (reload_is_served_from_caches string text_datetime no_container_str
           digits_only q no_caches cs1 w w1 p E).
Defined.

(** The page of that query: five matches, for four requests. *)
Example sample_page_load :
  let q := {| league_id_arg := Some "PL"; team_id_arg := Some "57";
              season_arg := None; limit_arg := Some "5" |} in
  let w := steady_world 200
             (VDict [("teams", VList []); ("matches", VList ten_matches);
                     ("standings", VList [])]) in
  let '(r, cs', w') :=
    index_get string text_datetime no_container_str digits_only q no_caches w in
  (match r with
   | Ok p => length (matches p) = 5%nat /\ limit p = 5
   | Raise _ => False
   end)
  /\ length (network_calls (trace w')) = 4%nat.
Proof. vm_compute. repeat split. Qed.


(** * The caches keep the most recently used calls *)

Lemma recency_elem (x : call) (l : list call) : x ∈ recency l <-> x ∈ l.
Proof.
  induction l as [|k l IH]; simpl; [reflexivity|].
  destruct (bool_decide_reflect (k ∈ l)) as [Hin|Hout].
  - rewrite IH, elem_of_cons. split; [tauto|]. intros [->|]; assumption.
  - rewrite !elem_of_cons, IH. reflexivity.
Qed.

Lemma recency_NoDup (l : list call) : NoDup (recency l).
Proof.
  induction l as [|k l IH]; simpl; [constructor|].
  destruct (bool_decide_reflect (k ∈ l)) as [Hin|Hout]; [assumption|].
  constructor; [|assumption]. by rewrite recency_elem.
Qed.

Lemma filter_other_absent (k : call) (l : list call) :
  k ∉ l -> filter (fun x => x <> k) l = l.
Proof.
  induction l as [|x l IH]; [reflexivity|].
  intros [Hne Hl]%not_elem_of_cons.
  rewrite filter_cons_True by congruence. by rewrite IH.
Qed.

Lemma filter_other_length (k : call) (l : list call) :
  NoDup l -> k ∈ l -> S (length (filter (fun x => x <> k) l)) = length l.
Proof.
  induction 1 as [|x l Hx Hnd IH]; intros Hin.
  - by apply elem_of_nil in Hin.
  - destruct (decide (x = k)) as [->|Hne].
    + rewrite filter_cons_False by tauto.
      rewrite filter_other_absent by assumption. reflexivity.
    + rewrite filter_cons_True by assumption. simpl.
      apply elem_of_cons in Hin as [->|Hin]; [contradiction|].
      by rewrite IH.
Qed.

(** A further use moves the call to the most recent end. *)
Lemma recency_snoc (l : list call) (k : call) :
  recency (l ++ [k]) = filter (fun x => x <> k) (recency l) ++ [k].
Proof.
  induction l as [|x l IH]; [reflexivity|].
  change ((x :: l) ++ [k]) with (x :: (l ++ [k])). cbn [recency].
  destruct (decide (x = k)) as [->|Hne].
  - rewrite bool_decide_eq_true_2
      by (apply elem_of_app; right; apply list_elem_of_singleton; reflexivity).
    rewrite IH. f_equal.
    destruct (bool_decide (k ∈ l)); [reflexivity|].
    rewrite filter_cons_False by tauto. reflexivity.
  - destruct (bool_decide_reflect (x ∈ l)) as [Hin|Hout].
    + rewrite bool_decide_eq_true_2 by (apply elem_of_app; by left). exact IH.
    + rewrite bool_decide_eq_false_2.
      * rewrite IH, filter_cons_True by assumption. reflexivity.
      * intros [?|?%list_elem_of_singleton]%elem_of_app; [contradiction | congruence].
Qed.

(** One access keeps the cache on the [maxsize] most recently used calls,
    in the order of their last use. *)
Lemma lru_access_recency (maxsize : nat) (l : list call) (c : lru)
    (k : call) (v : value) :
  (0 < maxsize)%nat ->
  c.*1 = drop (length (recency l) - maxsize) (recency l) ->
  (lru_access maxsize c (k, v)).*1
  = drop (length (recency (l ++ [k])) - maxsize) (recency (l ++ [k])).
Proof.
  intros Hpos Hc. rewrite recency_snoc.
  pose proof (recency_NoDup l) as Hnd.
  remember (recency l) as r eqn:Hr. clear Hr.
  remember (length r - maxsize)%nat as m eqn:Hm.
  assert (length (drop m r) = (length r - m)%nat) as HlenD by apply length_drop.
  assert (length (take m r) = m) as HlenT by (rewrite length_take; lia).
  assert (length c = (length r - m)%nat) as Hlen
    by (rewrite <- (length_fmap fst c), Hc; exact HlenD).
  pose proof Hnd as Hsplit. rewrite <- (take_drop m r) in Hsplit.
  apply NoDup_app in Hsplit as (HndT & Hdisj & HndD).
  unfold lru_access, lru_touch, lru_insert. cbn [fst snd].
  destruct (lru_find k c) as [v'|] eqn:E.
  - assert (k ∈ drop m r) as HkD
      by (rewrite <- Hc; apply lru_find_is_Some; rewrite E; eauto).
    assert (k ∉ take m r) as HkT by (intros HT; exact (Hdisj k HT HkD)).
    pose proof (filter_other_length k (drop m r) HndD HkD) as HL.
    rewrite fmap_app, lru_keys_remove, Hc. cbn [fmap list_fmap fst].
    rewrite <- (take_drop m r) at 2 3.
    rewrite filter_app, (filter_other_absent k (take m r)) by assumption.
    rewrite <- app_assoc.
    apply symmetry, drop_app_length'.
    rewrite !length_app. simpl. lia.
  - apply lru_find_None in E. rewrite Hc in E. rewrite Hlen.
    destruct (decide (k ∈ r)) as [Hkr|Hkr].
    + assert (k ∈ take m r) as HkT.
      { rewrite <- (take_drop m r) in Hkr.
        apply elem_of_app in Hkr as [?|?]; [assumption | contradiction]. }
      pose proof (filter_other_length k (take m r) HndT HkT) as HL.
      destruct (Nat.leb_spec maxsize (length r - m)); [|lia].
      rewrite fmap_app, fmap_tail, Hc. cbn [fmap list_fmap fst].
      rewrite <- (take_drop m r) at 2 3.
      rewrite filter_app, (filter_other_absent k (drop m r)) by assumption.
      rewrite <- app_assoc.
      rewrite drop_app_ge by (rewrite !length_app; simpl; lia).
      replace (length (filter (fun x => x <> k) (take m r) ++ drop m r ++ [k])
               - maxsize - length (filter (fun x => x <> k) (take m r)))%nat
        with 1%nat by (rewrite !length_app; simpl; lia).
      destruct (drop m r) as [|d D]; [simpl in HlenD; lia | reflexivity].
    + rewrite (filter_other_absent k r) by assumption.
      destruct (Nat.leb_spec maxsize (length r - m)).
      * rewrite fmap_app, fmap_tail, Hc. cbn [fmap list_fmap fst].
        rewrite length_app. simpl.
        rewrite drop_app_le by lia.
        f_equal.
        replace (length r + 1 - maxsize)%nat with (m + 1)%nat by lia.
        rewrite <- drop_drop. by destruct (drop m r).
      * rewrite fmap_app, Hc. cbn [fmap list_fmap fst].
        rewrite length_app. simpl.
        replace (length r + 1 - maxsize)%nat with 0%nat by lia.
        replace m with 0%nat by lia.
        reflexivity.
Qed.

Lemma lru_fold_recency (maxsize : nat) (accesses : list (call * value)) :
  (0 < maxsize)%nat ->
  forall (l : list call) (c : lru),
    c.*1 = drop (length (recency l) - maxsize) (recency l) ->
    (fold_left (lru_access maxsize) accesses c).*1
    = drop (length (recency (l ++ accesses.*1)) - maxsize)
           (recency (l ++ accesses.*1)).
Proof.
  intros Hpos. induction accesses as [|[k v] accesses IH]; intros l c Hc.
  - simpl. rewrite app_nil_r. exact Hc.
  - cbn [fold_left]. rewrite fmap_cons. cbn [fst].
    replace (l ++ k :: accesses.*1) with ((l ++ [k]) ++ accesses.*1)
      by (rewrite <- app_assoc; reflexivity).
    apply IH. by apply lru_access_recency.
Qed.

(** The cache a run leaves is the cache its returned calls leave as
    accesses. *)
Lemma run_calls_accesses (op : operation) (cs : list call) :
  forall (c : lru) (w : world),
    fst (run_calls op cs c w)
    = fold_left (lru_access (maxsize_of op)) (returned_calls op cs c w) c.
Proof.
  induction cs as [|k cs IH]; intros c w; simpl; [reflexivity|].
  destruct (run op k c w) as [[[v|e] c'] w'] eqn:E.
  - rewrite IH. simpl. rewrite (run_is_access op k c c' w w' v E). reflexivity.
  - rewrite IH.
    destruct (run_cases _ _ _ _ _ _ _ E)
      as [(v & _ & [=] & _)|[(e' & _ & _ & _ & -> & _)|(ep & _ & _ & _ & _ & ->)]];
      reflexivity.
Qed.

(** C5, as the code has it.  The cache of each fetch operation has a
    fixed capacity, its [maxsize], and what a full cache evicts is the
    least recently used entry, a hit counting as a use: after any run of
    calls the cache holds exactly the [maxsize] most recently used of the
    calls that returned, in the order of their last use.  So when the run
    is a first call followed by calls of [maxsize] further distinct keys,
    in any order and with any repetition, and the first key is not used
    again, the first key is no longer retrievable and all the later keys
    are. *)
Theorem least_recently_used_eviction (op : operation) (cs : list call) (w : world) :
  let cache := fst (run_calls op cs [] w) in
  let used := (returned_calls op cs [] w).*1 in
  (length cache <= maxsize_of op)%nat
  /\ cache.*1 = drop (length (recency used) - maxsize_of op) (recency used)
  /\ forall (k0 : call) (rest ks : list call),
       used = k0 :: rest ->
       k0 ∉ rest ->
       NoDup ks -> length ks = maxsize_of op -> rest ⊆ ks -> ks ⊆ rest ->
       lru_find k0 cache = None
       /\ forall k, k ∈ ks -> is_Some (lru_find k cache).
Proof.
  intros cache used.
  assert (0 < maxsize_of op)%nat as Hpos
    by (destruct (maxsize_of_pos op) as [n ->]; lia).
  assert (cache = lru_run (maxsize_of op) (returned_calls op cs [] w)) as Hcache
    by apply run_calls_accesses.
  split; [rewrite Hcache; by apply lru_run_bounded|]. split.
  - rewrite Hcache. unfold lru_run.
    apply (lru_fold_recency (maxsize_of op) _ Hpos [] []). reflexivity.
  - intros k0 rest ks Hused Hfresh Hnd Hlen Hsub Hsup. rewrite Hcache.
    unfold used in Hused.
    destruct (returned_calls op cs [] w) as [|[k v0] accesses]; [discriminate|].
    rewrite fmap_cons in Hused. injection Hused as -> Hrest.
    apply (first_key_evicted (maxsize_of op) k0 ks Hpos Hnd Hlen).
    + intros Hin. apply Hfresh, Hsup, Hin.
    + by rewrite Hrest.
    + by rewrite Hrest.
Qed.

Lemma least_recently_used_eviction_witness :
  let ks := map numbered (seq 1 128) in
  let cs := numbered 0 :: ks ++ [numbered 1; numbered 7] in
  let w := steady_world 200 (VDict [("teams", VList [VInt 57])]) in
  let cache := fst (run_calls Teams cs [] w) in
  (cache.*1
   = map numbered (seq 2 5) ++ map numbered (seq 8 121) ++ [numbered 1; numbered 7])
  /\ lru_find (numbered 0) cache = None
  /\ forall k, k ∈ ks -> is_Some (lru_find k cache).
Proof.
  intros ks cs w cache.
  destruct (least_recently_used_eviction Teams cs w) as (_ & Hrecent & Hevicted).
  split; [refine (eq_trans Hrecent _); vm_compute; reflexivity|].
  assert ((returned_calls Teams cs [] w).*1
          = numbered 0 :: (ks ++ [numbered 1; numbered 7])) as Hused
    by (vm_compute; reflexivity).
  apply (Hevicted (numbered 0) (ks ++ [numbered 1; numbered 7]) ks Hused).
  - apply (bool_decide_unpack _); vm_compute; exact I.
  - apply (bool_decide_unpack _); vm_compute; exact I.
  - reflexivity.
  - intros x [Hx|Hx]%elem_of_app; [exact Hx|].
    apply elem_of_cons in Hx as [->|Hx];
      [apply (bool_decide_unpack _); vm_compute; exact I|].
    apply list_elem_of_singleton in Hx as ->.
    apply (bool_decide_unpack _); vm_compute; exact I.
  - intros x Hx; apply elem_of_app; left; exact Hx.
Defined.

(** * Normalisation, record by record *)

Section NormalizerByRecord.

Variable datetime : Type.
Variable fromisoformat : string -> option datetime.
Variable container_str : value -> string.

Local Abbreviation normalize := (normalize_match datetime fromisoformat container_str).
Local Abbreviation build := (build_match_list_from_matches datetime fromisoformat container_str).
Local Abbreviation loop := (build_loop datetime fromisoformat container_str).
Local Abbreviation parse := (parse_date datetime fromisoformat).

(** The record keeps the match it was built from. *)
Lemma normalize_keeps_raw (m team_id : value) (r : normalized datetime) :
  normalize m team_id = Ok r -> raw r = m.
Proof.
  unfold normalize_match.
  repeat match goal with
         | |- context [res_bind (py_get ?v ?k ?d) _] =>
             destruct (py_get v k d); simpl res_bind; [|discriminate]
         end.
  destruct (String.eqb _ _);
    (destruct (classify _ _) as [res|]; simpl res_bind; [|discriminate]);
    repeat match goal with
           | |- context [res_bind (py_get ?v ?k ?d) _] =>
               destruct (py_get v k d); simpl res_bind; [|discriminate]
           end;
    intros [= <-]; reflexivity.
Qed.

(** A date is there exactly for a non-empty [str] the library parses. *)
Lemma parse_date_iff (v : value) (d : datetime) :
  parse v = Some d <->
  exists s, v = VStr s /\ s <> ""
    /\ fromisoformat (str_replace "Z"%char "+00:00" s) = Some d.
Proof.
  unfold parse_date. split.
  - destruct (negb (truthy v)) eqn:Ht; [discriminate|].
    destruct v; try discriminate. intros H. exists s. split; [reflexivity|].
    split; [|exact H]. intros ->. discriminate.
  - intros (s & -> & Hs & H). simpl.
    destruct (String.eqb_spec s ""); [contradiction|]. exact H.
Qed.

(** The loop raises only where its body does, at the first such match. *)
Lemma build_loop_raises (ms : list value) (team_id : value) (e : exn) :
  forall acc,
    loop ms team_id acc = Raise e ->
    exists ms1 m ms2, ms = ms1 ++ m :: ms2
      /\ Forall (fun m' => exists r, normalize m' team_id = Ok r) ms1
      /\ normalize m team_id = Raise e.
Proof.
  induction ms as [|m ms IH]; intros acc; simpl; [discriminate|].
  destruct (normalize m team_id) as [r|e'] eqn:E; simpl.
  - intros H. destruct (IH _ H) as (ms1 & m' & ms2 & -> & Hms1 & Hm').
    exists (m :: ms1), m', ms2. split; [reflexivity|].
    split; [constructor; [by exists r | exact Hms1] | exact Hm'].
  - intros [= ->]. exists [], m, ms. split; [reflexivity|].
    split; [constructor | exact E].
Qed.

Lemma returns_on_all (ms : list value) (team_id : value) :
  Forall (fun m => exists r, normalize m team_id = Ok r) ms ->
  exists rs, Forall2 (fun m r => normalize m team_id = Ok r) ms rs.
Proof.
  induction 1 as [|m ms [r Hr] _ [rs IH]]; [exists []; constructor|].
  exists (r :: rs). by constructor.
Qed.

(** Where an object is expected and something else is found, the first
    [get] on it raises. *)
Lemma normalize_not_object (m team_id : value) :
  is_dict m && is_dict (home_team m) && is_dict (away_team m)
  && is_dict (score_object m) && is_dict (full_time m) = false ->
  normalize m team_id = Raise AttributeError.
Proof.
  intros Hbad. unfold normalize_match.
  destruct (is_dict m) eqn:Hm;
    [|rewrite (py_get_not_dict m) by exact Hm; reflexivity].
  rewrite !(py_get_field m) by assumption. simpl res_bind.
  fold (home_team m) (away_team m) (score_object m) (utc_date m).
  destruct (is_dict (score_object m)) eqn:Hs;
    [|rewrite (py_get_not_dict (score_object m)) by exact Hs; reflexivity].
  rewrite (py_get_field (score_object m)) by assumption. simpl res_bind.
  fold (full_time m).
  destruct (is_dict (home_team m)) eqn:Hh;
    [|rewrite (py_get_not_dict (home_team m)) by exact Hh; reflexivity].
  rewrite !(py_get_field (home_team m)) by assumption. simpl res_bind.
  destruct (is_dict (away_team m)) eqn:Ha;
    [|rewrite (py_get_not_dict (away_team m)) by exact Ha; reflexivity].
  rewrite !(py_get_field (away_team m)) by assumption. simpl res_bind.
  destruct (is_dict (full_time m)) eqn:Hf;
    [|rewrite (py_get_not_dict (full_time m)) by exact Hf; reflexivity].
  discriminate Hbad.
Qed.

(** C9, as the code has it.  Whenever normalisation returns, it returns
    one record per match in the order of the input, none dropped: the
    record at a position is the one the loop body builds from the match at
    that position alone, and keeps that match as its raw field.  There is
    no handler around the loop body: the call raises exactly when the body
    raises on some match after returning on those before it, and it does
    raise [AttributeError] on a match that is not an object, or whose
    homeTeam, awayTeam, score or score.fullTime is there and is not an
    object (an explicit null, say).  On raw matches (these and competition
    objects when present, full-time scores integers or null) it always
    returns, and an absent or unparsable utcDate only leaves the date of
    that record None, a missing score only leaves its goals and result
    None, missing names are the empty string. *)
Theorem normalization_by_record (ms : list value) (team_id : value) :
  (forall rs,
     build_match_list_from_matches datetime fromisoformat container_str ms team_id
     = Ok rs ->
     length rs = length ms
     /\ Forall2 (fun m r => normalize m team_id = Ok r /\ raw r = m) ms rs)
  /\ (forall e,
        build_match_list_from_matches datetime fromisoformat container_str ms team_id
        = Raise e
        <-> exists ms1 m ms2, ms = ms1 ++ m :: ms2
              /\ Forall (fun m' => exists r, normalize m' team_id = Ok r) ms1
              /\ normalize m team_id = Raise e)
  /\ (forall m,
        is_dict m && is_dict (home_team m) && is_dict (away_team m)
        && is_dict (score_object m) && is_dict (full_time m) = false ->
        normalize m team_id = Raise AttributeError)
  /\ (Forall (fun m => raw_match m = true) ms ->
      exists rs,
        build_match_list_from_matches datetime fromisoformat container_str ms team_id
        = Ok rs
        /\ Forall2 (fun m r =>
             (forall d, date r = Some d <->
                exists s, utc_date m = VStr s /\ s <> ""
                  /\ fromisoformat (str_replace "Z"%char "+00:00" s) = Some d)
             /\ (home_score m = VNone \/ away_score m = VNone ->
                 result r = None
                 /\ (goals_for r = VNone \/ goals_against r = VNone))
             /\ (home_team m = VDict [] -> away_team m = VDict [] ->
                 opponent r = VStr "")
             /\ (competition_object m = VDict [] -> competition r = VStr "")) ms rs).
Proof.
  split; [|split; [|split]].
  - intros rs H. unfold build_match_list_from_matches in H.
    destruct (build_loop_returns datetime fromisoformat container_str ms team_id [] rs H) as (rs' & -> & Hrs).
    simpl. split; [symmetry; eapply Forall2_length; exact Hrs|].
    eapply Forall2_impl; [exact Hrs|]. simpl. intros m r E.
    split; [exact E | exact (normalize_keeps_raw m team_id r E)].
  - intros e. unfold build_match_list_from_matches. split.
    + apply build_loop_raises.
    + intros (ms1 & m & ms2 & -> & Hms1 & Hm).
      destruct (returns_on_all ms1 team_id Hms1) as [rs Hrs].
      exact (build_loop_raise datetime fromisoformat container_str
               ms1 ms2 m team_id e [] rs Hrs Hm).
  - exact (fun m => normalize_not_object m team_id).
  - intros Hall.
    assert (exists rs, Forall2 (fun m r =>
        normalize m team_id = Ok r /\
        (forall d, date r = Some d <->
           exists s, utc_date m = VStr s /\ s <> ""
             /\ fromisoformat (str_replace "Z"%char "+00:00" s) = Some d) /\
        (home_score m = VNone \/ away_score m = VNone ->
         result r = None /\ (goals_for r = VNone \/ goals_against r = VNone)) /\
        (home_team m = VDict [] -> away_team m = VDict [] -> opponent r = VStr "") /\
        (competition_object m = VDict [] -> competition r = VStr "")) ms rs)
      as [rs Hrs].
    { induction Hall as [|m ms Hraw _ [rs IH]]; [exists []; constructor|].
      pose proof (normalize_raw datetime fromisoformat container_str m team_id Hraw) as E.
      cbv zeta in E.
      eexists (_ :: rs). constructor; [|exact IH].
      split; [exact E|]. simpl.
      split; [intros d; apply parse_date_iff|].
      split.
      - destruct (raw_match_scores datetime fromisoformat container_str m Hraw)
          as [Hh Ha].
        intros Hnone.
        destruct (String.eqb _ _);
          (split; [apply result_of_none; tauto | tauto]).
      - split.
        + intros Hh Ha. unfold home_name, away_name. rewrite Hh, Ha.
          destruct (String.eqb _ _); reflexivity.
        + intros Hc. unfold competition_name. rewrite Hc. reflexivity. }
    exists rs. split.
    + unfold build_match_list_from_matches.
      erewrite build_loop_spec; [reflexivity|].
      eapply Forall2_impl; [exact Hrs|]. simpl. tauto.
    + eapply Forall2_impl; [exact Hrs|]. simpl. tauto.
Qed.

End NormalizerByRecord.

Lemma normalization_by_record_witness :
  let ms := [sample_match "FINISHED" (VInt 2) (VInt 1); VDict [];
             sample_match "FINISHED" VNone (VInt 0)] in
  Forall (fun m => raw_match m = true) ms
  /\ exists rs,
       build_match_list_from_matches string text_datetime no_container_str
         ms (VStr "57") = Ok rs
       /\ length rs = length ms
       /\ Forall2 (fun m r =>
            (forall d, date r = Some d <->
               exists s, utc_date m = VStr s /\ s <> ""
                 /\ text_datetime (str_replace "Z"%char "+00:00" s) = Some d)
            /\ (home_score m = VNone \/ away_score m = VNone ->
                result r = None
                /\ (goals_for r = VNone \/ goals_against r = VNone))
            /\ (home_team m = VDict [] -> away_team m = VDict [] ->
                opponent r = VStr "")
            /\ (competition_object m = VDict [] -> competition r = VStr "")) ms rs.
Proof.
  intros ms.
  assert (Forall (fun m => raw_match m = true) ms) as Hall
    by (repeat constructor).
  split; [exact Hall|].
  destruct (normalization_by_record string text_datetime no_container_str
              ms (VStr "57")) as (Hone & _ & _ & Hraw).
  destruct (Hraw Hall) as (rs & Hrs & Hdegrade).
  exists rs. split; [exact Hrs|].
  split; [exact (proj1 (Hone rs Hrs)) | exact Hdegrade].
Defined.

(** C9, as the claim has it, fails.  A match whose score is an explicit
    null is a malformed record; the loop body raises on it, and the records
    of the matches around it, on which the body returns, are lost with
    it. *)
Lemma null_score_aborts_the_batch :
  let good := sample_match "FINISHED" (VInt 2) (VInt 1) in
  let bad := VDict [("utcDate", VStr "2023-08-12T11:30:00Z"); ("score", VNone)] in
  (exists r, normalize_match string text_datetime no_container_str
               good (VStr "57") = Ok r)
  /\ normalize_match string text_datetime no_container_str bad (VStr "57")
     = Raise AttributeError
  /\ build_match_list_from_matches string text_datetime no_container_str
       [good; bad; good] (VStr "57") = Raise AttributeError.
Proof. split; [eexists; reflexivity|]. split; reflexivity. Qed.
